(** * Score post-LLM pipeline: curve computation, compatibility and grading

    A shallow embedding of the TypeScript sources

    - [schemas.ts] (compatibility types, [extractBaseProblemId],
      [checkCompatibility]), and
    - [generate-synthetic-data.ts] ([generateReportJSON], [createScorePool],
      [computeCurve], [applyCurve]),

    followed by the properties of the curve and grading engine.

    Modelling conventions.

    - A JavaScript [number] is a real number ([R]).  Binary64 rounding, NaN
      and the infinities are outside the model; every operation below is the
      exact operation the ECMAScript text approximates.  On scores, which
      lie between 0 and 1, the program and the model differ by the rounding
      errors of the arithmetic only; where a result is then rounded to a
      fixed number of decimals, such an error can move it to the other
      neighbour when the exact value is next to a tie.  The statements
      about rounded results are therefore made up to a tolerance and leave
      the direction of a tie open ([Spec.rounded_near]).
    - A JavaScript string is a [string]; the identifiers handled here are
      ASCII.
    - An array is a [list]; [arr[i]] is [nth_error], so that an index out of
      range is [None] (JavaScript's [undefined]).
    - A [Set] is the list of its elements in insertion order.
    - [Math.random()], [crypto.randomUUID()] and [new Date()] read the
      outside world.  The world is a record of three tapes with a read
      position each; effectful functions live in a state-and-exception
      monad over it. *)

From Stdlib Require Import Reals Lra Lia ZArith List String Ascii Bool Arith.
From Stdlib Require Import Zfloor.
From Stdlib Require DecimalString DecimalNat.
Import ListNotations.

(* ================================================================= *)
(** * JavaScript built-ins *)
(* ================================================================= *)

Module Js.

(** ** Numbers *)

Abbreviation number := R (only parsing).

(** [Math.round(x)]: the integer closest to [x], ties towards +infinity. *)
Definition Math_round (x : number) : number := IZR (Zfloor (x + 1 / 2)).

Definition Math_max (x y : number) : number := Rmax x y.
Definition Math_min (x y : number) : number := Rmin x y.
Definition Math_sqrt (x : number) : number := sqrt x.

(** [Math.pow(x, y)].  An integral exponent is repeated multiplication, or
    division when it is negative; otherwise a positive base is raised by
    [exp (y * ln x)] and a zero base to a positive power is zero.  Where
    JavaScript answers NaN or an infinity (a negative base with a fractional
    exponent, a zero base with a negative one) there is no real result: the
    value below is then 0 or [/ 0], and nothing relies on it. *)
Definition Math_pow (x y : number) : number :=
  if Req_dec_T y (IZR (Zfloor y)) then powerRZ x (Zfloor y)
  else if Rlt_dec 0 x then Rpower x y
  else 0%R.

(** [x >= y] on numbers. *)
Definition geq (x y : number) : bool := if Rge_dec x y then true else false.

(** [x >= arr[i]]: a comparison with [undefined] is false. *)
Definition geq_opt (x : number) (y : option number) : bool :=
  match y with
  | Some y' => geq x y'
  | None => false
  end.

(** ** Arrays *)

(** [arr.reduce(f, init)]. *)
Definition reduce {A B : Type} (f : B -> A -> B) (init : B) (arr : list A) : B :=
  fold_left f arr init.

(** [arr.length] as a number. *)
Definition length_num {A : Type} (arr : list A) : number := INR (List.length arr).

(** [for (const x of xs) body], threading the variables the body assigns. *)
Definition for_of {A S : Type} (xs : list A) (body : S -> A -> S) (s : S) : S :=
  fold_left body xs s.

(** [arr.push(x)]. *)
Definition push {A : Type} (arr : list A) (x : A) : list A := (arr ++ [x])%list.

(** [arr.push(...xs)]. *)
Definition push_all {A : Type} (arr xs : list A) : list A := (arr ++ xs)%list.

(** ** Strings *)

(** Relative index of [String.prototype.slice]: a negative index counts from
    the end, and the result is clamped into [0, len]. *)
Definition relative_index (len i : Z) : Z :=
  if (i <? 0)%Z then Z.max (len + i) 0 else Z.min i len.

(** [s.slice(start, end)]; [end_ = None] is an omitted [end]. *)
Definition slice (s : string) (start : Z) (end_ : option Z) : string :=
  let len := Z.of_nat (String.length s) in
  let from := relative_index len start in
  let to := match end_ with
            | None => len
            | Some e => relative_index len e
            end in
  if (from >=? to)%Z then EmptyString
  else substring (Z.to_nat from) (Z.to_nat (to - from)) s.

(** ** Sets of strings *)

Definition StringSet := list string.

(** [set.has(x)]. *)
Definition Set_has (s : StringSet) (x : string) : bool :=
  existsb (String.eqb x) s.

(** [set.add(x)]: a new element goes last, a present one changes nothing. *)
Definition Set_add (s : StringSet) (x : string) : StringSet :=
  if Set_has s x then s else (s ++ [x])%list.

(** [new Set(arr)]. *)
Definition Set_new (arr : list string) : StringSet :=
  fold_left Set_add arr [].

(** ** Numbers as strings, padding *)

(** [String(n)] for a non-negative integer [n]: its decimal digits. *)
Definition Number_toString (n : nat) : string :=
  DecimalString.NilEmpty.string_of_uint (Nat.to_uint n).

(** The filler of [padStart]: [padString] repeated and cut to [fillLen]
    characters ([fuel] bounds the number of repetitions). *)
Fixpoint repeat_to_length (padString : string) (fillLen fuel : nat) : string :=
  match fuel with
  | O => EmptyString
  | S fuel' =>
      if (fillLen <=? String.length padString)%nat
      then substring 0 fillLen padString
      else (padString
            ++ repeat_to_length padString (fillLen - String.length padString) fuel')%string
  end.

(** [s.padStart(targetLength, padString)]. *)
Definition padStart (s : string) (targetLength : nat) (padString : string) : string :=
  if (targetLength <=? String.length s)%nat then s
  else if (String.length padString =? 0)%nat then s
  else (repeat_to_length padString (targetLength - String.length s)
                         (targetLength - String.length s) ++ s)%string.

(** ** Objects keyed by string, with the key order of JavaScript *)

(** The value of a decimal digit. *)
Definition digit_value (c : ascii) : option N :=
  let n := N_of_ascii c in
  if ((48 <=? n) && (n <=? 57))%N then Some (n - 48)%N else None.

Fixpoint parse_digits (s : string) (acc : N) : option N :=
  match s with
  | EmptyString => Some acc
  | String c rest =>
      match digit_value c with
      | Some d => parse_digits rest (10 * acc + d)%N
      | None => None
      end
  end.

(** A key is an array index when it is the canonical decimal writing of an
    integer below 2^32 - 1. *)
Definition array_index (k : string) : option N :=
  match k with
  | EmptyString => None
  | String c rest =>
      if (Ascii.eqb c "0" && negb (String.eqb rest EmptyString))%bool then None
      else if (10 <? String.length k)%nat then None
      else match parse_digits k 0 with
           | Some n => if (n <? 4294967295)%N then Some n else None
           | None => None
           end
  end.

(** The own keys of an object are enumerated with the array indices first,
    in ascending order, and then the other keys in creation order.  An
    object is the list of its properties in that order. *)
Definition JsObject (V : Type) : Type := list (string * V).

(** A new key [k] is created in front of the existing key [k']. *)
Definition key_before (k k' : string) : bool :=
  match array_index k, array_index k' with
  | Some n, Some n' => (n <? n')%N
  | Some _, None => true
  | None, _ => false
  end.

(** [Object.hasOwn(obj, k)]. *)
Definition JsObject_has {V : Type} (obj : JsObject V) (k : string) : bool :=
  existsb (fun kv => String.eqb (fst kv) k) obj.

Fixpoint JsObject_replace {V : Type} (obj : JsObject V) (k : string) (v : V)
    : JsObject V :=
  match obj with
  | [] => []
  | (k', v') :: rest =>
      if String.eqb k' k then (k', v) :: rest
      else (k', v') :: JsObject_replace rest k v
  end.

Fixpoint JsObject_create {V : Type} (obj : JsObject V) (k : string) (v : V)
    : JsObject V :=
  match obj with
  | [] => [(k, v)]
  | (k', v') :: rest =>
      if key_before k k' then (k, v) :: (k', v') :: rest
      else (k', v') :: JsObject_create rest k v
  end.

(** [obj[k] = v]: an existing property keeps its place. *)
Definition JsObject_set {V : Type} (obj : JsObject V) (k : string) (v : V)
    : JsObject V :=
  if JsObject_has obj k then JsObject_replace obj k v else JsObject_create obj k v.

(** [Object.fromEntries(entries)]. *)
Definition JsObject_fromEntries {V : Type} (entries : list (string * V))
    : JsObject V :=
  fold_left (fun obj kv => JsObject_set obj (fst kv) (snd kv)) entries [].

(** The value of the own property [k] of [obj], [None] when [obj] has no
    own property [k].  This is what [obj[k]] reads for a key the object
    has; for a key it has not, [obj[k]] goes on to [Object.prototype],
    which is not part of the model. *)
Fixpoint JsObject_get {V : Type} (obj : JsObject V) (k : string) : option V :=
  match obj with
  | [] => None
  | (k', v) :: rest => if String.eqb k' k then Some v else JsObject_get rest k
  end.

(** [Object.keys(obj)]. *)
Definition JsObject_keys {V : Type} (obj : JsObject V) : list string :=
  map fst obj.

End Js.

(* ================================================================= *)
(** * The outside world: randomness, identifiers, the clock *)
(* ================================================================= *)

Module Effect.

(** The [n]-th call of [Math.random()] returns [random_tape n], and likewise
    for [crypto.randomUUID()] and for reading the clock. *)
Record World : Type := mkWorld {
  random_tape : nat -> R;
  random_reads : nat;
  uuid_tape : nat -> string;
  uuid_reads : nat;
  clock_tape : nat -> string;
  clock_reads : nat
}.

(** A call either returns a value or throws an [Error] with a message. *)
Inductive outcome (A : Type) : Type :=
| Returned (value : A)
| Thrown (message : string).

Arguments Returned {A} value.
Arguments Thrown {A} message.

Definition M (A : Type) : Type := World -> outcome A * World.

Definition ret {A : Type} (a : A) : M A := fun w => (Returned a, w).

Definition bind {A B : Type} (c : M A) (k : A -> M B) : M B :=
  fun w =>
    match c w with
    | (Returned a, w') => k a w'
    | (Thrown msg, w') => (Thrown msg, w')
    end.

(** [throw new Error(msg)]. *)
Definition throw {A : Type} (msg : string) : M A := fun w => (Thrown msg, w).

Declare Scope effect_scope.
Delimit Scope effect_scope with effect.

Notation "x <- c ;; k" := (bind c (fun x => k))
  (at level 61, c at next level, right associativity) : effect_scope.

(** [Math.random()]. *)
Definition Math_random : M R :=
  fun w =>
    (Returned (random_tape w (random_reads w)),
     mkWorld (random_tape w) (S (random_reads w))
             (uuid_tape w) (uuid_reads w)
             (clock_tape w) (clock_reads w)).

(** [randomUUID()] of the [crypto] module. *)
Definition randomUUID : M string :=
  fun w =>
    (Returned (uuid_tape w (uuid_reads w)),
     mkWorld (random_tape w) (random_reads w)
             (uuid_tape w) (S (uuid_reads w))
             (clock_tape w) (clock_reads w)).

(** [new Date().toISOString()]. *)
Definition Date_toISOString : M string :=
  fun w =>
    (Returned (clock_tape w (clock_reads w)),
     mkWorld (random_tape w) (random_reads w)
             (uuid_tape w) (uuid_reads w)
             (clock_tape w) (S (clock_reads w))).

(** [arr.map(f)] for a callback with effects: elements are visited from left
    to right. *)
Fixpoint mapM {A B : Type} (f : A -> M B) (arr : list A) : M (list B) :=
  match arr with
  | [] => ret []
  | x :: rest =>
      (y <- f x ;;
       ys <- mapM f rest ;;
       ret (y :: ys))%effect
  end.

(** [Array.from({ length: count }, (_, i) => f(i))] for a callback with
    effects: the indices 0, ..., count - 1 are visited in order. *)
Definition Array_from {B : Type} (count : nat) (f : nat -> M B) : M (list B) :=
  mapM f (seq 0 count).

End Effect.

(* ================================================================= *)
(** * schemas.ts *)
(* ================================================================= *)

Module Schemas.

Import Js.

(** [LetterGradeSchema]: A, B, C, D, or X (uncurved). *)
Module LetterGrade.
Inductive t : Type := A | B | C | D | X.
End LetterGrade.

(** [AbilityScoreSchema]. *)
Module AbilityScore.
Record t : Type := mk {
  dimension_id : string;
  score : number
}.
End AbilityScore.

(** [ProblemScoreSchema]. *)
Module ProblemScore.
Record t : Type := mk {
  problem_id : string;
  objective_score : number;
  dimension_scores : list AbilityScore.t
}.
End ProblemScore.

(** [ProblemInReportSchema]; [dimension_scores] is a record keyed by
    dimension id, kept as the list of its entries in key order. *)
Module ProblemInReport.
Record t : Type := mk {
  problem_id : string;
  dimension_scores : list (string * number);
  objective_score : number
}.
End ProblemInReport.

(** [AbilityDimensionInReportSchema]. *)
Module AbilityDimensionInReport.
Record t : Type := mk {
  dimension_id : string;
  score : number
}.
End AbilityDimensionInReport.

(** [ReportJSONSchema]; [letter_grades] is the literal [null]. *)
Module ReportJSON.
Record t : Type := mk {
  report_id : string;
  event_id : string;
  prompt_version_hash : string;
  generated_at : string;
  participant_id : string;
  problems : list ProblemInReport.t;
  abilities : list AbilityDimensionInReport.t;
  overall_score : option number;
  letter_grades : unit
}.
End ReportJSON.

(** [JSONScoresSchema]. *)
Module JSONScores.
Record t : Type := mk {
  source_report_id : string;
  event_id : string;
  participant_id : string;
  overall_score : option number;
  ability_scores : list AbilityScore.t;
  problem_scores : list ProblemScore.t
}.
End JSONScores.

(** [CurveMethodSchema]. *)
Module CurveMethod.
Inductive t : Type :=
| percentile (percentiles : list number)
| standard_deviation (sigma_boundaries : list number)
| absolute (thresholds : list number).
End CurveMethod.

(** [ThresholdDefinitionSchema]. *)
Module ThresholdDefinition.
Record t : Type := mk {
  thresholds : list number;
  grades : list LetterGrade.t
}.
End ThresholdDefinition.

(** [AbilityCurveSchema]. *)
Module AbilityCurve.
Record t : Type := mk {
  dimension_id : string;
  thresholds : list number;
  grades : list LetterGrade.t
}.
End AbilityCurve.

(** [ProblemCurveSchema]. *)
Module ProblemCurve.
Record t : Type := mk {
  problem_id : string;
  thresholds : list number;
  grades : list LetterGrade.t
}.
End ProblemCurve.

(** [CurveSchema]. *)
Module Curve.
Record t : Type := mk {
  curve_id : string;
  source_event_id : string;
  prompt_version_hash : string;
  problem_ids : list string;
  dimension_ids : list string;
  method : CurveMethod.t;
  sample_size : nat;
  computed_at : string;
  overall : ThresholdDefinition.t;
  ability_curves : list AbilityCurve.t;
  problem_curves : list ProblemCurve.t
}.
End Curve.

(** [AbilityGradeSchema] and [ProblemGradeSchema]. *)
Module AbilityGrade.
Record t : Type := mk {
  dimension_id : string;
  grade : LetterGrade.t
}.
End AbilityGrade.

Module ProblemGrade.
Record t : Type := mk {
  problem_id : string;
  grade : LetterGrade.t
}.
End ProblemGrade.

(** The [differences] object of the [requires_override] variant. *)
Module Differences.
Record t : Type := mk {
  prompt_version_mismatch : bool;
  problem_id_differences : option (list string);
  dimension_id_differences : option (list string)
}.
End Differences.

(** [CompatibilityResultSchema], a union discriminated by [status]. *)
Module CompatibilityResult.
Inductive t : Type :=
| compatible
| incompatible (reasons : list string)
| requires_override (warnings : list string) (differences : Differences.t).
End CompatibilityResult.

(** The [options] argument of [checkCompatibility]; the field is optional. *)
Module Options.
Record t : Type := mk {
  allowLanguageDifference : option bool
}.
End Options.

(** [options?.allowLanguageDifference] used as a condition. *)
Definition allowLanguageDifference_set (options : option Options.t) : bool :=
  match options with
  | Some o =>
      match Options.allowLanguageDifference o with
      | Some b => b
      | None => false
      end
  | None => false
  end.

(** [extractBaseProblemId]: remove the last digit (language indicator). *)
Definition extractBaseProblemId (problemId : string) : string :=
  slice problemId 0 (Some (-1)%Z).

(** The language of a problem. *)
Inductive Language : Type := zh | en.

(** [extractLanguage]. *)
Definition extractLanguage (problemId : string) : Language :=
  let lastDigit := slice problemId (-1) None in
  if String.eqb lastDigit "0" then zh else en.

(** [areLanguageEquivalent]. *)
Definition areLanguageEquivalent (id1 id2 : string) : bool :=
  String.eqb (extractBaseProblemId id1) (extractBaseProblemId id2).

(** The two reason templates of [checkCompatibility]. *)
Definition curve_has (id : string) : string :=
  ("Curve has " ++ id ++ " but scores missing it")%string.

Definition scores_has (id : string) : string :=
  ("Scores has " ++ id ++ " but curve missing it")%string.

(** The [hasMatch] test of the two problem loops: [pid] is looked up in the
    other side's set [others]. *)
Definition hasMatch (options : option Options.t) (others : StringSet)
    (pid : string) : bool :=
  let baseId := if allowLanguageDifference_set options
                then extractBaseProblemId pid
                else pid in
  if allowLanguageDifference_set options
  then existsb (fun other => String.eqb (extractBaseProblemId other) baseId) others
  else Set_has others pid.

(** The array [problemIdDifferences] once both problem loops have run. *)
Definition problemIdDifferences (curve : Curve.t) (scores : JSONScores.t)
    (options : option Options.t) : list string :=
  let scoreProblemIds :=
    Set_new (map ProblemScore.problem_id (JSONScores.problem_scores scores)) in
  let curveProblemIds := Set_new (Curve.problem_ids curve) in
  let diffs : list string := [] in
  let diffs :=
    for_of curveProblemIds
      (fun diffs pid =>
         if negb (hasMatch options scoreProblemIds pid)
         then push diffs (curve_has pid)
         else diffs)
      diffs in
  for_of scoreProblemIds
    (fun diffs pid =>
       if negb (hasMatch options curveProblemIds pid)
       then push diffs (scores_has pid)
       else diffs)
    diffs.

(** The array [dimensionIdDifferences] once both dimension loops have run. *)
Definition dimensionIdDifferences (curve : Curve.t) (scores : JSONScores.t)
    : list string :=
  let scoreDimensionIds :=
    Set_new (map AbilityScore.dimension_id (JSONScores.ability_scores scores)) in
  let curveDimensionIds := Set_new (Curve.dimension_ids curve) in
  let diffs : list string := [] in
  let diffs :=
    for_of curveDimensionIds
      (fun diffs did =>
         if negb (Set_has scoreDimensionIds did)
         then push diffs (curve_has did)
         else diffs)
      diffs in
  for_of scoreDimensionIds
    (fun diffs did =>
       if negb (Set_has curveDimensionIds did)
       then push diffs (scores_has did)
       else diffs)
    diffs.

(** [checkCompatibility].  [warnings] is declared and never written; the
    function ends with the note that the prompt version is not checked. *)
Definition checkCompatibility (curve : Curve.t) (scores : JSONScores.t)
    (options : option Options.t) : CompatibilityResult.t :=
  let reasons : list string := [] in
  let problemDiffs := problemIdDifferences curve scores options in
  let reasons :=
    if (0 <? List.length problemDiffs)%nat
    then push_all reasons problemDiffs
    else reasons in
  let dimensionDiffs := dimensionIdDifferences curve scores in
  let reasons :=
    if (0 <? List.length dimensionDiffs)%nat
    then push_all reasons dimensionDiffs
    else reasons in
  if (0 <? List.length reasons)%nat
  then CompatibilityResult.incompatible reasons
  else CompatibilityResult.compatible.

End Schemas.

(* ================================================================= *)
(** * generate-synthetic-data.ts *)
(* ================================================================= *)

Module SyntheticData.

Import Js Effect Schemas.
Local Open Scope R_scope.

(** ** Plain objects used as records keyed by string *)

Definition Object := list (string * number).

(** [obj[k] = v]: an existing key keeps its place, a new key goes last. *)
Fixpoint Object_set (obj : Object) (k : string) (v : number) : Object :=
  match obj with
  | [] => [(k, v)]
  | (k', v') :: rest =>
      if String.eqb k' k then (k', v) :: rest
      else (k', v') :: Object_set rest k v
  end.

(** [Object.fromEntries(entries)]. *)
Definition Object_fromEntries (entries : list (string * number)) : Object :=
  fold_left (fun obj kv => Object_set obj (fst kv) (snd kv)) entries [].

(** [Object.entries(obj)]. *)
Definition Object_entries (obj : Object) : list (string * number) := obj.

(** [obj[k]], [None] standing for [undefined]. *)
Fixpoint Object_get (obj : Object) (k : string) : option number :=
  match obj with
  | [] => None
  | (k', v) :: rest => if String.eqb k' k then Some v else Object_get rest k
  end.

(** [obj[k]] read as a number.  [undefined] has no value among the reals and
    is read as 0; [generateReportJSON] only reads keys it has just written
    (see [generated_problems_have_every_dimension]). *)
Definition Object_get_number (obj : Object) (k : string) : number :=
  match Object_get obj k with
  | Some v => v
  | None => 0
  end.

(** ** Types of the pipeline stages, as the object literals build them *)

Module TotalScores.
Record t : Type := mk {
  total_problem_score : number;
  total_ability_score : number;
  final_total_score : number
}.
End TotalScores.

Module ReportJSON.
Record t : Type := mk {
  report_id : string;
  event_id : string;
  prompt_version_hash : string;
  generated_at : string;
  participant_id : string;
  problems : list ProblemInReport.t;
  abilities : list AbilityDimensionInReport.t;
  totals : TotalScores.t;
  letter_grades : unit
}.
End ReportJSON.

Module JSONScores.
Record t : Type := mk {
  source_report_id : string;
  event_id : string;
  participant_id : string;
  totals : TotalScores.t;
  ability_scores : list AbilityScore.t;
  problem_scores : list ProblemScore.t
}.
End JSONScores.

Module ScorePool.
Record t : Type := mk {
  event_id : string;
  prompt_version_hash : string;
  problem_ids : list string;
  dimension_ids : list string;
  scores : list JSONScores.t
}.
End ScorePool.

Module TotalCurves.
Record t : Type := mk {
  total_problem : ThresholdDefinition.t;
  total_ability : ThresholdDefinition.t;
  final_total : ThresholdDefinition.t
}.
End TotalCurves.

Module Curve.
Record t : Type := mk {
  curve_id : string;
  source_event_id : string;
  prompt_version_hash : string;
  problem_ids : list string;
  dimension_ids : list string;
  method : CurveMethod.t;
  sample_size : nat;
  computed_at : string;
  totals : TotalCurves.t;
  ability_curves : list AbilityCurve.t;
  problem_curves : list ProblemCurve.t
}.
End Curve.

Module TotalGrades.
Record t : Type := mk {
  total_problem_grade : LetterGrade.t;
  total_ability_grade : LetterGrade.t;
  final_total_grade : LetterGrade.t
}.
End TotalGrades.

Module CurvedLetterGrades.
Record t : Type := mk {
  source_scores_id : string;
  curve_id : string;
  computed_at : string;
  total_grades : TotalGrades.t;
  ability_grades : list AbilityGrade.t;
  problem_grades : list ProblemGrade.t
}.
End CurvedLetterGrades.

Module DimensionProblemDependency.
Record t : Type := mk {
  dimension_id : string;
  contributing_problem_ids : list string
}.
End DimensionProblemDependency.

Module DimensionDependencyConfig.
Record t : Type := mk {
  version : string;
  updated_at : string;
  dependencies : list DimensionProblemDependency.t
}.
End DimensionDependencyConfig.

(** ** Configuration *)

Definition PROBLEM_IDS : list string :=
  ["003400"; "003401"; "005000"; "005001"; "010000"; "010001"]%string.

Definition DIMENSION_IDS : list string :=
  ["discovery"; "representation"; "iterative-refinement"; "exploratory";
   "self-verification"]%string.

Definition EVENT_ID : string := "event_2024_01".
Definition PROMPT_VERSION_HASH : string := "abc1234def5678".

(** ** Utility functions *)

(** [randomScore]. *)
Definition randomScore : M number :=
  (r <- Math_random ;;
   ret (Math_round (r * 100) / 100))%effect.

Definition randomUuid : M string := randomUUID.

Definition now : M string := Date_toISOString.

(** [geometricMean]. *)
Definition geometricMean (scores : list number) : number :=
  match scores with
  | [] => 0
  | _ =>
      let product := reduce (fun acc s => acc * s) 1 scores in
      Math_pow product (1 / length_num scores)
  end.

(** ** Data generators *)

(** [generateDimensionDependencies]. *)
Definition generateDimensionDependencies : M DimensionDependencyConfig.t :=
  (updated_at <- now ;;
   ret (DimensionDependencyConfig.mk "1.0.0" updated_at
     [ DimensionProblemDependency.mk "discovery"
         ["003400"; "003401"; "005000"; "005001"]%string;
       DimensionProblemDependency.mk "representation"
         ["003400"; "003401"; "010000"; "010001"]%string;
       DimensionProblemDependency.mk "iterative-refinement"
         ["005000"; "005001"; "010000"; "010001"]%string;
       DimensionProblemDependency.mk "exploratory"
         ["003400"; "003401"; "005000"; "005001"; "010000"; "010001"]%string;
       DimensionProblemDependency.mk "self-verification"
         ["003400"; "003401"; "005000"; "005001"]%string ]))%effect.

(** The [problems] array of [generateReportJSON]: for every problem, one
    random score per dimension and then a random objective score. *)
Definition generateProblems : M (list ProblemInReport.t) :=
  mapM
    (fun pid =>
       (entries <- mapM (fun did => (s <- randomScore ;; ret (did, s))%effect)
                        DIMENSION_IDS ;;
        objective_score <- randomScore ;;
        ret (ProblemInReport.mk pid (Object_fromEntries entries)
                                objective_score))%effect)
    PROBLEM_IDS.

(** The [abilities] array of [generateReportJSON], commented "Calculate
    ability scores (average across problems)".  The arithmetic is exact
    here; next to a tie of the rounding the program's binary64 result is
    the other neighbour (scores 0, 0.21, 0, 0, 0, 0: 0.03 in the program,
    0.04 here). *)
Definition computeAbilities (problems : list ProblemInReport.t)
    : list AbilityDimensionInReport.t :=
  map
    (fun did =>
       let scores :=
         map (fun p => Object_get_number (ProblemInReport.dimension_scores p) did)
             problems in
       AbilityDimensionInReport.mk did
         (Math_round (reduce Rplus 0 scores / length_num scores * 100) / 100))
    DIMENSION_IDS.

(** The [totals] of [generateReportJSON]. *)
Definition computeTotals (problems : list ProblemInReport.t)
    (abilities : list AbilityDimensionInReport.t) : TotalScores.t :=
  let total_problem_score :=
    Math_round
      (reduce (fun sum p => sum + ProblemInReport.objective_score p) 0 problems
       / length_num problems * 100) / 100 in
  let total_ability_score :=
    Math_round
      (reduce (fun sum a => sum + AbilityDimensionInReport.score a) 0 abilities
       / length_num abilities * 100) / 100 in
  let final_total_score :=
    Math_round
      (geometricMean [total_problem_score; total_ability_score] * 100) / 100 in
  TotalScores.mk total_problem_score total_ability_score final_total_score.

(** [generateReportJSON]. *)
Definition generateReportJSON (participantId : string) : M ReportJSON.t :=
  (problems <- generateProblems ;;
   let abilities := computeAbilities problems in
   let totals := computeTotals problems abilities in
   report_id <- randomUuid ;;
   generated_at <- now ;;
   ret (ReportJSON.mk report_id EVENT_ID PROMPT_VERSION_HASH generated_at
          participantId problems abilities totals tt))%effect.

(** [extractJSONScores]. *)
Definition extractJSONScores (report : ReportJSON.t) : JSONScores.t :=
  JSONScores.mk
    (ReportJSON.report_id report)
    (ReportJSON.event_id report)
    (ReportJSON.participant_id report)
    (ReportJSON.totals report)
    (map (fun a => AbilityScore.mk (AbilityDimensionInReport.dimension_id a)
                                   (AbilityDimensionInReport.score a))
         (ReportJSON.abilities report))
    (map (fun p =>
            ProblemScore.mk
              (ProblemInReport.problem_id p)
              (ProblemInReport.objective_score p)
              (map (fun kv => AbilityScore.mk (fst kv) (snd kv))
                   (Object_entries (ProblemInReport.dimension_scores p))))
         (ReportJSON.problems report)).

(** [createScorePool]. *)
Definition createScorePool (scores : list JSONScores.t) : M ScorePool.t :=
  match scores with
  | [] => throw "Cannot create score pool from empty scores array"
  | first :: _ =>
      ret (ScorePool.mk (JSONScores.event_id first) PROMPT_VERSION_HASH
             PROBLEM_IDS DIMENSION_IDS scores)
  end.

(** ** Curve computation *)

(** The helper [clamp] of [computeStdDevThresholds]. *)
Definition clamp (v : number) : number := Math_max 0 (Math_min 1 v).

(** The helper [computeStdDevThresholds] of [computeCurve].  The arithmetic
    is exact here.  The program's binary64 results differ from it by
    rounding errors, which decide the last decimal when a value to round
    is next to a tie: for nineteen values 0.5 and one value 0.51 the
    program returns 0.5 as the middle threshold, and this definition
    0.501. *)
Definition computeStdDevThresholds (values : list number) : list number :=
  match values with
  | [] => [0.8; 0.5; 0.2]
  | _ =>
      let mean := reduce (fun a b => a + b) 0 values / length_num values in
      let variance :=
        reduce (fun sum v => sum + Math_pow (v - mean) 2) 0 values
        / length_num values in
      let stdDev := Math_sqrt variance in
      [ Math_round (clamp (mean + stdDev) * 1000) / 1000;
        Math_round (clamp mean * 1000) / 1000;
        Math_round (clamp (mean - stdDev) * 1000) / 1000 ]
  end.

Definition ABCD : list LetterGrade.t :=
  [LetterGrade.A; LetterGrade.B; LetterGrade.C; LetterGrade.D].

(** [computeCurve]. *)
Definition computeCurve (pool : ScorePool.t) : M Curve.t :=
  let scores := ScorePool.scores pool in
  let totalProblemScores :=
    map (fun s => TotalScores.total_problem_score (JSONScores.totals s)) scores in
  let totalAbilityScores :=
    map (fun s => TotalScores.total_ability_score (JSONScores.totals s)) scores in
  let finalTotalScores :=
    map (fun s => TotalScores.final_total_score (JSONScores.totals s)) scores in
  let abilityThresholds :=
    map (fun did =>
           let dimScores :=
             flat_map
               (fun s =>
                  map AbilityScore.score
                    (filter (fun a => String.eqb (AbilityScore.dimension_id a) did)
                            (JSONScores.ability_scores s)))
               scores in
           AbilityCurve.mk did (computeStdDevThresholds dimScores) ABCD)
        DIMENSION_IDS in
  let problemThresholds :=
    map (fun pid =>
           let probScores :=
             flat_map
               (fun s =>
                  map ProblemScore.objective_score
                    (filter (fun p => String.eqb (ProblemScore.problem_id p) pid)
                            (JSONScores.problem_scores s)))
               scores in
           ProblemCurve.mk pid (computeStdDevThresholds probScores) ABCD)
        PROBLEM_IDS in
  (curve_id <- randomUuid ;;
   computed_at <- now ;;
   ret (Curve.mk curve_id
          (ScorePool.event_id pool)
          (ScorePool.prompt_version_hash pool)
          (ScorePool.problem_ids pool)
          (ScorePool.dimension_ids pool)
          (CurveMethod.standard_deviation [1; 0; -1])
          (List.length scores)
          computed_at
          (TotalCurves.mk
             (ThresholdDefinition.mk (computeStdDevThresholds totalProblemScores) ABCD)
             (ThresholdDefinition.mk (computeStdDevThresholds totalAbilityScores) ABCD)
             (ThresholdDefinition.mk (computeStdDevThresholds finalTotalScores) ABCD))
          abilityThresholds
          problemThresholds))%effect.

(** ** Curve application *)

(** The helper [getGrade] of [applyCurve]. *)
Definition getGrade (score : number) (thresholds : list number) : LetterGrade.t :=
  if geq_opt score (nth_error thresholds 0) then LetterGrade.A
  else if geq_opt score (nth_error thresholds 1) then LetterGrade.B
  else if geq_opt score (nth_error thresholds 2) then LetterGrade.C
  else LetterGrade.D.

(** The literal [[0.8, 0.6, 0.4]] after [??]. *)
Definition fallbackThresholds : list number := [0.8; 0.6; 0.4].

(** [curveData?.thresholds ?? [0.8, 0.6, 0.4]] for an ability curve. *)
Definition abilityThresholdsOr (curveData : option AbilityCurve.t) : list number :=
  match curveData with
  | Some c => AbilityCurve.thresholds c
  | None => fallbackThresholds
  end.

(** [curveData?.thresholds ?? [0.8, 0.6, 0.4]] for a problem curve. *)
Definition problemThresholdsOr (curveData : option ProblemCurve.t) : list number :=
  match curveData with
  | Some c => ProblemCurve.thresholds c
  | None => fallbackThresholds
  end.

(** [applyCurve]. *)
Definition applyCurve (scores : JSONScores.t) (curve : Curve.t)
    : M CurvedLetterGrades.t :=
  let totalProblemGrade :=
    getGrade (TotalScores.total_problem_score (JSONScores.totals scores))
             (ThresholdDefinition.thresholds
                (TotalCurves.total_problem (Curve.totals curve))) in
  let totalAbilityGrade :=
    getGrade (TotalScores.total_ability_score (JSONScores.totals scores))
             (ThresholdDefinition.thresholds
                (TotalCurves.total_ability (Curve.totals curve))) in
  let finalTotalGrade :=
    getGrade (TotalScores.final_total_score (JSONScores.totals scores))
             (ThresholdDefinition.thresholds
                (TotalCurves.final_total (Curve.totals curve))) in
  let abilityGrades :=
    map (fun a =>
           let curveData :=
             find (fun c => String.eqb (AbilityCurve.dimension_id c)
                                       (AbilityScore.dimension_id a))
                  (Curve.ability_curves curve) in
           AbilityGrade.mk (AbilityScore.dimension_id a)
             (getGrade (AbilityScore.score a) (abilityThresholdsOr curveData)))
        (JSONScores.ability_scores scores) in
  let problemGrades :=
    map (fun p =>
           let curveData :=
             find (fun c => String.eqb (ProblemCurve.problem_id c)
                                       (ProblemScore.problem_id p))
                  (Curve.problem_curves curve) in
           ProblemGrade.mk (ProblemScore.problem_id p)
             (getGrade (ProblemScore.objective_score p)
                       (problemThresholdsOr curveData)))
        (JSONScores.problem_scores scores) in
  (computed_at <- now ;;
   ret (CurvedLetterGrades.mk
          (JSONScores.source_report_id scores)
          (Curve.curve_id curve)
          computed_at
          (TotalGrades.mk totalProblemGrade totalAbilityGrade finalTotalGrade)
          abilityGrades
          problemGrades))%effect.

(** ** Batches of reports *)

(** [generateMultipleReports]. *)
Definition generateMultipleReports (count : nat) : M (list ReportJSON.t) :=
  Array_from count
    (fun i =>
       generateReportJSON
         ("participant_" ++ padStart (Number_toString (i + 1)) 3 "0")%string).

(** ** Curved reports *)

Module TotalLetterGrades.
Record t : Type := mk {
  total_problem : LetterGrade.t;
  total_ability : LetterGrade.t;
  final_total : LetterGrade.t
}.
End TotalLetterGrades.

Module LetterGradesInReport.
Record t : Type := mk {
  totals : TotalLetterGrades.t;
  abilities : JsObject LetterGrade.t;
  problems : JsObject LetterGrade.t
}.
End LetterGradesInReport.

Module CurvedReport.
Record t : Type := mk {
  curved_report_id : string;
  source_report_id : string;
  event_id : string;
  prompt_version_hash : string;
  applied_curve_id : string;
  curved_at : string;
  participant_id : string;
  problems : list ProblemInReport.t;
  abilities : list AbilityDimensionInReport.t;
  totals : TotalScores.t;
  letter_grades : LetterGradesInReport.t
}.
End CurvedReport.

(** [mergeIntoCurvedReport]. *)
Definition mergeIntoCurvedReport (report : ReportJSON.t)
    (grades : CurvedLetterGrades.t) : M CurvedReport.t :=
  (curved_report_id <- randomUuid ;;
   curved_at <- now ;;
   ret (CurvedReport.mk
          curved_report_id
          (ReportJSON.report_id report)
          (ReportJSON.event_id report)
          (ReportJSON.prompt_version_hash report)
          (CurvedLetterGrades.curve_id grades)
          curved_at
          (ReportJSON.participant_id report)
          (ReportJSON.problems report)
          (ReportJSON.abilities report)
          (ReportJSON.totals report)
          (LetterGradesInReport.mk
             (TotalLetterGrades.mk
                (TotalGrades.total_problem_grade
                   (CurvedLetterGrades.total_grades grades))
                (TotalGrades.total_ability_grade
                   (CurvedLetterGrades.total_grades grades))
                (TotalGrades.final_total_grade
                   (CurvedLetterGrades.total_grades grades)))
             (JsObject_fromEntries
                (map (fun a => (AbilityGrade.dimension_id a, AbilityGrade.grade a))
                     (CurvedLetterGrades.ability_grades grades)))
             (JsObject_fromEntries
                (map (fun p => (ProblemGrade.problem_id p, ProblemGrade.grade p))
                     (CurvedLetterGrades.problem_grades grades))))))%effect.

End SyntheticData.

(* ================================================================= *)
(** * Vocabulary of the specification *)
(* ================================================================= *)

Module Spec.

Import Js Schemas.
Local Open Scope R_scope.

(** ** Statistics *)

Fixpoint sum (values : list R) : R :=
  match values with
  | [] => 0
  | v :: rest => v + sum rest
  end.

(** Arithmetic mean. *)
Definition mean (values : list R) : R := sum values / INR (List.length values).

(** Population variance and standard deviation: the squared deviations from
    the mean are averaged with denominator N. *)
Definition population_variance (values : list R) : R :=
  sum (map (fun v => (v - mean values) * (v - mean values)) values)
  / INR (List.length values).

Definition population_stddev (values : list R) : R :=
  sqrt (population_variance values).

(** [clamp x lo hi]: [x] forced into the interval from [lo] to [hi]. *)
Definition clamp (x lo hi : R) : R :=
  if Rlt_dec x lo then lo
  else if Rlt_dec hi x then hi
  else x.

(** [r] is [x] rounded to [d] decimals: a multiple of [10^-d] at distance at
    most half a unit in the last place from [x], the upper one on a tie. *)
Definition rounded_to_decimals (d : nat) (r x : R) : Prop :=
  (exists z : Z, r = IZR z / 10 ^ d) /\
  x - 1 / (2 * 10 ^ d) < r <= x + 1 / (2 * 10 ^ d).

(** ** Grade thresholds *)

(** A threshold triple in descending order. *)
Definition descending (thresholds : list R) : Prop :=
  exists a b c, thresholds = [a; b; c] /\ a >= b /\ b >= c.

(** ** Compatibility *)

(** When two problem ids count as the same problem: verbatim equality, or
    equality of what is left once the trailing language digit is removed. *)
Definition same_problem (language_variant : bool) (p q : string) : Prop :=
  if language_variant
  then extractBaseProblemId p = extractBaseProblemId q
  else p = q.

(** [x] is listed on [side] and nothing on the [other] side is the same item. *)
Definition only_in (same : string -> string -> Prop) (side other : list string)
    (x : string) : Prop :=
  In x side /\ forall y, In y other -> ~ same x y.

(** [items] lists every id with property [P] once, and nothing else. *)
Definition lists_exactly (items : list string) (P : string -> Prop) : Prop :=
  NoDup items /\ forall x, In x items <-> P x.

(** The problem ids and the dimension ids of a scores object. *)
Definition score_problem_ids (scores : JSONScores.t) : list string :=
  map ProblemScore.problem_id (JSONScores.problem_scores scores).

Definition score_dimension_ids (scores : JSONScores.t) : list string :=
  map AbilityScore.dimension_id (JSONScores.ability_scores scores).

(** The two sides list the same set of ids. *)
Definition same_set (l1 l2 : list string) : Prop :=
  forall x, In x l1 <-> In x l2.

(** The structural sets of a curve and of a scores object match. *)
Definition sets_match (curve : Curve.t) (scores : JSONScores.t) : Prop :=
  same_set (Curve.problem_ids curve) (score_problem_ids scores) /\
  same_set (Curve.dimension_ids curve) (score_dimension_ids scores).

(** ** Aggregation over a dimension map *)

(** The problems a dimension map lists for a dimension. *)
Definition contributing_problems
    (config : SyntheticData.DimensionDependencyConfig.t) (did : string)
    : list string :=
  flat_map
    (fun d =>
       if String.eqb (SyntheticData.DimensionProblemDependency.dimension_id d) did
       then SyntheticData.DimensionProblemDependency.contributing_problem_ids d
       else [])
    (SyntheticData.DimensionDependencyConfig.dependencies config).

(** The scores of dimension [did], taken only from the problems the map
    lists for it. *)
Definition contributing_scores
    (config : SyntheticData.DimensionDependencyConfig.t)
    (problems : list ProblemInReport.t) (did : string) : list R :=
  flat_map
    (fun p =>
       if existsb (String.eqb (ProblemInReport.problem_id p))
                  (contributing_problems config did)
       then match SyntheticData.Object_get (ProblemInReport.dimension_scores p) did with
            | Some v => [v]
            | None => []
            end
       else [])
    problems.

(** ** Pool consistency *)


(** ** Further vocabulary *)

(** A score value: a number of the closed interval from 0 to 1. *)
Definition score_value (x : R) : Prop := 0 <= x <= 1.

(** Product of a list of numbers. *)
Fixpoint product (values : list R) : R :=
  match values with
  | [] => 1
  | v :: rest => v * product rest
  end.

(** Letter grades from best to worst. *)
Definition grade_rank (g : LetterGrade.t) : nat :=
  match g with
  | LetterGrade.A => 0
  | LetterGrade.B => 1
  | LetterGrade.C => 2
  | LetterGrade.D => 3
  | LetterGrade.X => 4
  end.

(** [g1] is at least as good a grade as [g2]. *)
Definition at_least_as_good (g1 g2 : LetterGrade.t) : Prop :=
  (grade_rank g1 <= grade_rank g2)%nat.

(** The value of the last entry with key [k], if any. *)
Fixpoint last_value {V : Type} (entries : list (string * V)) (k : string)
    : option V :=
  match entries with
  | [] => None
  | (k', v) :: rest =>
      match last_value rest k with
      | Some v' => Some v'
      | None => if String.eqb k' k then Some v else None
      end
  end.

(** A problem id ends with a language digit, 0 or 1. *)
Definition language_digit (c : ascii) : Prop := c = "0"%char \/ c = "1"%char.


(** The allowance made for the rounding errors of binary64 arithmetic, in
    units of the last decimal kept: a millionth of a unit.  The errors of
    the sums, means and deviations of up to a million scores between 0 and
    1 stay below it. *)
Definition binary64_slack : R := 1 / 10 ^ 6.

(** [r] is [x] rounded to [d] decimals, up to the rounding errors of the
    arithmetic: a multiple of [10^-d] at distance at most half a unit in
    the last place, and the slack, from [x].  Which neighbour is taken on a
    tie is left open. *)
Definition rounded_near (d : nat) (r x : R) : Prop :=
  (exists z : Z, r = IZR z / 10 ^ d) /\
  Rabs (r - x) <= (1 / 2 + binary64_slack) / 10 ^ d.

(** Every score of a scores object is a score value. *)
Definition holds_score_values (scores : SyntheticData.JSONScores.t) : Prop :=
  score_value (SyntheticData.TotalScores.total_problem_score
                 (SyntheticData.JSONScores.totals scores)) /\
  score_value (SyntheticData.TotalScores.total_ability_score
                 (SyntheticData.JSONScores.totals scores)) /\
  score_value (SyntheticData.TotalScores.final_total_score
                 (SyntheticData.JSONScores.totals scores)) /\
  Forall (fun a => score_value (AbilityScore.score a))
         (SyntheticData.JSONScores.ability_scores scores) /\
  Forall (fun p => score_value (ProblemScore.objective_score p))
         (SyntheticData.JSONScores.problem_scores scores).

End Spec.

(* ================================================================= *)
(** * The random draws of a report, in closed form *)
(* ================================================================= *)

Module Trace.

Import Js Effect Schemas SyntheticData.
Local Open Scope R_scope.

(** The score produced by the [k]-th call of [randomScore] from [w] on. *)
Definition drawn (w : World) (k : nat) : R :=
  Math_round (random_tape w (k + random_reads w) * 100) / 100.

(** Problem number [i] of a report generated from [w]: six draws, one per
    dimension and then one for the objective score. *)
Definition problem_drawn (w : World) (i : nat) (pid : string) : ProblemInReport.t :=
  ProblemInReport.mk pid
    (map (fun jd => (snd jd, drawn w (6 * i + fst jd)))
         (combine (seq 0 5) DIMENSION_IDS))
    (drawn w (6 * i + 5)).

Definition problems_drawn (w : World) : list ProblemInReport.t :=
  map (fun ip => problem_drawn w (fst ip) (snd ip)) (combine (seq 0 6) PROBLEM_IDS).

(** The world after [k] more calls of [Math.random()]. *)
Definition skip_random (k : nat) (w : World) : World :=
  mkWorld (random_tape w) (k + random_reads w) (uuid_tape w) (uuid_reads w)
          (clock_tape w) (clock_reads w).

(** The world after [i] reports have been generated: each one takes 36
    random numbers, one identifier and one reading of the clock. *)
Definition after_reports (i : nat) (w : World) : World :=
  mkWorld (random_tape w) (36 * i + random_reads w)
          (uuid_tape w) (i + uuid_reads w)
          (clock_tape w) (i + clock_reads w).

(** The participant id of the report of index [i] in a batch. *)
Definition participant_of_index (i : nat) : string :=
  ("participant_" ++ padStart (Number_toString (i + 1)) 3 "0")%string.

(** The values [computeCurve] gathers for a problem and for a dimension. *)
Definition probScores (scores : list JSONScores.t) (pid : string) : list R :=
  flat_map
    (fun s =>
       map ProblemScore.objective_score
         (filter (fun p => String.eqb (ProblemScore.problem_id p) pid)
                 (JSONScores.problem_scores s)))
    scores.

Definition dimScores (scores : list JSONScores.t) (did : string) : list R :=
  flat_map
    (fun s =>
       map AbilityScore.score
         (filter (fun a => String.eqb (AbilityScore.dimension_id a) did)
                 (JSONScores.ability_scores s)))
    scores.

(** The report [generateReportJSON] returns from the world [w]. *)
Definition report_drawn (participantId : string) (w : World) : ReportJSON.t :=
  ReportJSON.mk (uuid_tape w (uuid_reads w)) EVENT_ID PROMPT_VERSION_HASH
    (clock_tape w (clock_reads w)) participantId
    (problems_drawn w)
    (computeAbilities (problems_drawn w))
    (computeTotals (problems_drawn w) (computeAbilities (problems_drawn w)))
    tt.

(** The curve [computeCurve] returns for [pool] from the world [w]. *)
Definition curve_computed (pool : ScorePool.t) (w : World) : Curve.t :=
  Curve.mk (uuid_tape w (uuid_reads w))
    (ScorePool.event_id pool) (ScorePool.prompt_version_hash pool)
    (ScorePool.problem_ids pool) (ScorePool.dimension_ids pool)
    (CurveMethod.standard_deviation [1; 0; -1])
    (List.length (ScorePool.scores pool))
    (clock_tape w (clock_reads w))
    (TotalCurves.mk
       (ThresholdDefinition.mk
          (computeStdDevThresholds
             (map (fun s => TotalScores.total_problem_score (JSONScores.totals s))
                  (ScorePool.scores pool))) ABCD)
       (ThresholdDefinition.mk
          (computeStdDevThresholds
             (map (fun s => TotalScores.total_ability_score (JSONScores.totals s))
                  (ScorePool.scores pool))) ABCD)
       (ThresholdDefinition.mk
          (computeStdDevThresholds
             (map (fun s => TotalScores.final_total_score (JSONScores.totals s))
                  (ScorePool.scores pool))) ABCD))
    (map (fun did =>
            AbilityCurve.mk did
              (computeStdDevThresholds (dimScores (ScorePool.scores pool) did)) ABCD)
         DIMENSION_IDS)
    (map (fun pid =>
            ProblemCurve.mk pid
              (computeStdDevThresholds (probScores (ScorePool.scores pool) pid)) ABCD)
         PROBLEM_IDS).

(** Reading a decimal number back from its digits, leading zeros allowed. *)
Definition decode_number (s : string) : option nat :=
  option_map Nat.of_uint (DecimalString.NilEmpty.uint_of_string s).

(** Every score of a problem of a report is a score value. *)
Definition problem_holds_score_values (p : ProblemInReport.t) : Prop :=
  Spec.score_value (ProblemInReport.objective_score p) /\
  Forall (fun kv => Spec.score_value (snd kv)) (ProblemInReport.dimension_scores p).

End Trace.

(* ================================================================= *)
(** * Concrete inputs *)
(* ================================================================= *)

Module CompatibilityExamples.

Import Js Schemas.
Local Open Scope string_scope.

Definition curve_with (hash : string) (problem_ids dimension_ids : list string)
    : Curve.t :=
  Curve.mk "7d9f3c1e-58a4-4f0b-9a63-0c2b1e4d5f60" "event_2024_01" hash
    problem_ids dimension_ids
    (CurveMethod.standard_deviation [1%R; 0%R; (-1)%R])
    20 "2024-01-15T10:30:00.000Z"
    (ThresholdDefinition.mk [0.8%R; 0.6%R; 0.4%R]
       [LetterGrade.A; LetterGrade.B; LetterGrade.C; LetterGrade.D])
    [] [].

Definition scores_with (problem_ids dimension_ids : list string) : JSONScores.t :=
  JSONScores.mk "1b4e28ba-2fa1-41d2-883f-0016d3cca427" "event_2024_01"
    "participant_001" None
    (map (fun d => AbilityScore.mk d 0.5%R) dimension_ids)
    (map (fun p => ProblemScore.mk p 0.5%R []) problem_ids).

(** The report the scores above were extracted from. *)
Definition report_with (hash : string) : ReportJSON.t :=
  ReportJSON.mk "1b4e28ba-2fa1-41d2-883f-0016d3cca427" "event_2024_01" hash
    "2024-01-15T09:00:00.000Z" "participant_001" [] [] None tt.

(** [{ allowLanguageDifference: true }]. *)
Definition language_variant : option Options.t := Some (Options.mk (Some true)).

End CompatibilityExamples.

Module PipelineExamples.

Import Js Effect Schemas SyntheticData.
Local Open Scope R_scope.
Local Open Scope string_scope.

(** A clock that advances by one millisecond between readings. *)
Definition ticking_clock (n : nat) : string :=
  match n with
  | O => "2024-01-15T10:30:00.000Z"
  | S O => "2024-01-15T10:30:00.001Z"
  | _ => "2024-01-15T10:30:00.002Z"
  end.

Definition constant_uuid (n : nat) : string :=
  "7d9f3c1e-58a4-4f0b-9a63-0c2b1e4d5f60".

Definition world0 : World :=
  mkWorld (fun _ => 0.5) 0 constant_uuid 0 ticking_clock 0.

(** [Math.random()] returns 0.85, except at the draws that give problems
    "010000" and "010001" their "discovery" score, where it returns 0.25. *)
Definition skewed_random (n : nat) : R :=
  if ((n =? 24) || (n =? 30))%nat then 0.25 else 0.85.

Definition skewed_world : World :=
  mkWorld skewed_random 0 constant_uuid 0 ticking_clock 0.

Definition ABCD_thresholds (a b c : R) : ThresholdDefinition.t :=
  ThresholdDefinition.mk [a; b; c] ABCD.

(** A curve that knows one problem and one dimension. *)
Definition small_curve : Curve.t :=
  Curve.mk "7d9f3c1e-58a4-4f0b-9a63-0c2b1e4d5f60" EVENT_ID PROMPT_VERSION_HASH
    ["003400"] ["discovery"]
    (CurveMethod.standard_deviation [1; 0; -1]) 20 "2024-01-15T10:00:00.000Z"
    (TotalCurves.mk (ABCD_thresholds 0.7 0.5 0.3) (ABCD_thresholds 0.7 0.5 0.3)
                    (ABCD_thresholds 0.7 0.5 0.3))
    [AbilityCurve.mk "discovery" [0.7; 0.5; 0.3] ABCD]
    [ProblemCurve.mk "003400" [0.7; 0.5; 0.3] ABCD].

(** Scores with a problem the curve has never seen. *)
Definition scores_with_new_problem : JSONScores.t :=
  JSONScores.mk "1b4e28ba-2fa1-41d2-883f-0016d3cca427" EVENT_ID "participant_001"
    (TotalScores.mk 0.5 0.5 0.5)
    [AbilityScore.mk "discovery" 0.5]
    [ProblemScore.mk "003400" 0.5 []; ProblemScore.mk "999999" 0.5 []].

(** Scores of a second participant, over another problem and another
    dimension. *)
Definition scores_over_other_problems : JSONScores.t :=
  JSONScores.mk "9c5b94b1-35ad-49bb-b118-8e8fc24abf80" EVENT_ID "participant_002"
    (TotalScores.mk 0.5 0.5 0.5)
    [AbilityScore.mk "collaboration" 0.5]
    [ProblemScore.mk "005000" 0.5 []].

(** A pool whose only member has scores for one problem and one dimension,
    neither of them the first configured one. *)
Definition pool_over_other_problems : ScorePool.t :=
  ScorePool.mk EVENT_ID PROMPT_VERSION_HASH PROBLEM_IDS DIMENSION_IDS
    [scores_over_other_problems].

End PipelineExamples.

(* ================================================================= *)
(** * Facts about the built-ins *)
(* ================================================================= *)

Module JsFacts.

Import Js.

(** ** Sets *)

Lemma Set_has_In (s : StringSet) (x : string) : Set_has s x = true <-> In x s.
Proof.
  unfold Set_has. rewrite existsb_exists. split.
  - intros [y [Hy Heq]]. apply String.eqb_eq in Heq. now subst.
  - intros H. exists x. split; [assumption | apply String.eqb_refl].
Qed.

Lemma Set_has_false (s : StringSet) (x : string) : Set_has s x = false <-> ~ In x s.
Proof.
  rewrite <- Set_has_In. destruct (Set_has s x); split; congruence.
Qed.

Lemma Set_add_In (s : StringSet) (x y : string) :
  In y (Set_add s x) <-> In y s \/ y = x.
Proof.
  unfold Set_add. destruct (Set_has s x) eqn:E.
  - apply Set_has_In in E. split; [tauto | intros [H | ->]; assumption].
  - rewrite in_app_iff. simpl. intuition congruence.
Qed.

Lemma Set_add_NoDup (s : StringSet) (x : string) : NoDup s -> NoDup (Set_add s x).
Proof.
  intros H. unfold Set_add. destruct (Set_has s x) eqn:E; [assumption |].
  apply Set_has_false in E.
  apply NoDup_app; [assumption | repeat constructor; simpl; tauto |].
  intros y Hy [<- | []]. contradiction.
Qed.

Lemma fold_Set_add_In (arr : list string) :
  forall s y, In y (fold_left Set_add arr s) <-> In y s \/ In y arr.
Proof.
  induction arr as [| x arr IH]; intros s y; simpl.
  - tauto.
  - rewrite IH, Set_add_In. intuition congruence.
Qed.

Lemma fold_Set_add_NoDup (arr : list string) :
  forall s, NoDup s -> NoDup (fold_left Set_add arr s).
Proof.
  induction arr as [| x arr IH]; intros s H; simpl; [assumption |].
  apply IH, Set_add_NoDup, H.
Qed.

(** A set holds the elements of the array it was built from, once each. *)
Lemma Set_new_In (arr : list string) (y : string) : In y (Set_new arr) <-> In y arr.
Proof. unfold Set_new. rewrite fold_Set_add_In. simpl. tauto. Qed.

Lemma Set_new_NoDup (arr : list string) : NoDup (Set_new arr).
Proof. apply fold_Set_add_NoDup. constructor. Qed.

(** ** Loops *)

(** A loop that pushes a message for every element failing a test builds
    the messages of the failing elements, in order. *)
Lemma for_of_push_filter {A B : Type} (test : A -> bool) (msg : A -> B)
    (xs : list A) :
  forall acc,
    for_of xs (fun diffs x => if negb (test x) then push diffs (msg x) else diffs) acc
    = (acc ++ map msg (filter (fun x => negb (test x)) xs))%list.
Proof.
  unfold for_of, push.
  induction xs as [| x xs IH]; intros acc; simpl.
  - now rewrite app_nil_r.
  - rewrite IH. destruct (negb (test x)); simpl;
      [now rewrite <- app_assoc | reflexivity].
Qed.

Lemma find_none_iff {A : Type} (f : A -> bool) (l : list A) :
  find f l = None <-> forall x, In x l -> f x = false.
Proof.
  split.
  - apply find_none.
  - induction l as [| x l IH]; intros H; simpl; [reflexivity |].
    rewrite (H x (or_introl eq_refl)). apply IH. intros y Hy. apply H. now right.
Qed.

(** ** Strings *)

Lemma string_length_append (s t : string) :
  String.length (s ++ t) = String.length s + String.length t.
Proof. induction s as [| c s IH]; simpl; [reflexivity | now rewrite IH]. Qed.

Lemma string_append_cancel_l (s a b : string) :
  (s ++ a = s ++ b)%string -> a = b.
Proof.
  induction s as [| c s IH]; simpl; intros H; [assumption | injection H; auto].
Qed.

Lemma string_append_cancel_r (t : string) :
  forall a b : string, (a ++ t = b ++ t)%string -> a = b.
Proof.
  induction a as [| c a IH]; intros [| d b] H; simpl in H.
  - reflexivity.
  - apply (f_equal String.length) in H. simpl in H.
    rewrite string_length_append in H. lia.
  - apply (f_equal String.length) in H. simpl in H.
    rewrite string_length_append in H. lia.
  - injection H as -> H. f_equal. now apply IH.
Qed.

Lemma substring_prefix (s t : string) :
  substring 0 (String.length s) (s ++ t) = s.
Proof.
  induction s as [| c s IH]; simpl.
  - now destruct t.
  - now rewrite IH.
Qed.

(** A string that is not empty has a last character. *)
Lemma string_snoc (s : string) :
  s <> EmptyString ->
  exists stem c, s = (stem ++ String c EmptyString)%string.
Proof.
  induction s as [| a s IH]; intros H; [congruence |].
  destruct s as [| b s].
  - exists EmptyString, a. reflexivity.
  - destruct IH as [stem [c E]]; [discriminate |].
    exists (String a stem), c. simpl. now rewrite E.
Qed.


(** [slice(0, -1)] drops the last character. *)
Lemma slice_drops_last (stem : string) (c : ascii) :
  slice (stem ++ String c EmptyString) 0 (Some (-1)%Z) = stem.
Proof.
  unfold slice, relative_index.
  rewrite string_length_append. simpl String.length.
  replace (Z.of_nat (String.length stem + 1) + -1)%Z
    with (Z.of_nat (String.length stem)) by lia.
  change (0 <? 0)%Z with false. change (-1 <? 0)%Z with true. cbv iota.
  rewrite Z.min_l by lia. rewrite Z.max_l by lia.
  destruct stem as [| d stem].
  - reflexivity.
  - assert ((0 >=? Z.of_nat (String.length (String d stem)))%Z = false) as E.
    { rewrite Z.geb_leb. apply Z.leb_gt. simpl String.length. lia. }
    rewrite E, Z.sub_0_r, Nat2Z.id. apply substring_prefix.
Qed.

(** ** Numbers *)

Section Numbers.
Local Open Scope R_scope.

Lemma fold_left_sum {A : Type} (f : A -> R) (values : list A) :
  forall acc,
    fold_left (fun sum v => sum + f v) values acc = acc + Spec.sum (map f values).
Proof.
  induction values as [| v values IH]; intros acc; simpl.
  - lra.
  - rewrite IH. lra.
Qed.

Lemma reduce_sum (values : list R) :
  reduce (fun a b => a + b) 0 values = Spec.sum values.
Proof.
  unfold reduce. rewrite (fold_left_sum (fun v => v)), map_id. lra.
Qed.

Lemma reduce_sum_map {A : Type} (f : A -> R) (values : list A) :
  reduce (fun sum v => sum + f v) 0 values = Spec.sum (map f values).
Proof. unfold reduce. rewrite fold_left_sum. lra. Qed.

Lemma Math_pow_2 (x : R) : Math_pow x 2 = x * x.
Proof.
  unfold Math_pow. rewrite ZfloorZ.
  destruct (Req_dec_T 2 2) as [_ | H]; [| now destruct H].
  unfold powerRZ. change (Pos.to_nat 2) with 2%nat. ring.
Qed.

Lemma Math_round_le (x y : R) : x <= y -> Math_round x <= Math_round y.
Proof.
  intros H. unfold Math_round. apply IZR_le, Zfloor_le. lra.
Qed.

Lemma Math_round_bound (x : R) : x - 1 / 2 < Math_round x <= x + 1 / 2.
Proof.
  unfold Math_round. pose proof (Zfloor_bound (x + 1 / 2)). lra.
Qed.

Lemma Math_round_eq (z : Z) (x : R) :
  IZR z - 1 / 2 <= x < IZR z + 1 / 2 -> Math_round x = IZR z.
Proof.
  intros H. unfold Math_round. f_equal. apply Zfloor_eq. lra.
Qed.

(** [Math.round(x * 1000) / 1000] rounds to 3 decimals, and
    [Math.round(x * 100) / 100] to 2. *)
Lemma round_3_decimals (x : R) :
  Spec.rounded_to_decimals 3 (Math_round (x * 1000) / 1000) x.
Proof.
  split.
  - exists (Zfloor (x * 1000 + 1 / 2)). unfold Math_round. simpl. f_equal. lra.
  - pose proof (Math_round_bound (x * 1000)). simpl. lra.
Qed.

Lemma round_2_decimals (x : R) :
  Spec.rounded_to_decimals 2 (Math_round (x * 100) / 100) x.
Proof.
  split.
  - exists (Zfloor (x * 100 + 1 / 2)). unfold Math_round. simpl. f_equal. lra.
  - pose proof (Math_round_bound (x * 100)). simpl. lra.
Qed.

(** The exact rounding is within the tolerance. *)
Lemma rounded_to_decimals_near (d : nat) (r x : R) :
  Spec.rounded_to_decimals d r x -> Spec.rounded_near d r x.
Proof.
  intros [Hz [Hlo Hhi]]. split; [exact Hz |].
  assert (0 < 10 ^ d) as Hpos by (apply pow_lt; lra).
  assert (0 < / 10 ^ d) as Hinv by now apply Rinv_0_lt_compat.
  assert (1 / (2 * 10 ^ d) = / 10 ^ d / 2) as E by (field; lra).
  rewrite E in Hlo, Hhi.
  unfold Spec.binary64_slack.
  replace ((1 / 2 + 1 / 10 ^ 6) / 10 ^ d)
    with (/ 10 ^ d / 2 + / 10 ^ d * (1 / 10 ^ 6)) by (field; lra).
  assert (0 <= / 10 ^ d * (1 / 10 ^ 6)) as Hslack.
  { apply Rmult_le_pos; [lra |]. simpl. lra. }
  apply Rabs_le. lra.
Qed.

(** Next to a tie both neighbours are roundings.  The mean of nineteen
    values 0.5 and one value 0.51 is 0.5005: binary64 arithmetic, which
    finds the mean a little below, rounds it to 0.5, and exact arithmetic to
    0.501. *)
Example rounded_near_tie_3_decimals :
  Spec.mean (repeat 0.5 19 ++ [0.51]) = 0.5005 /\
  Spec.rounded_near 3 0.5 0.5005 /\
  Spec.rounded_near 3 0.501 0.5005.
Proof.
  split; [unfold Spec.mean; simpl; lra |].
  unfold Spec.rounded_near, Spec.binary64_slack.
  split; (split; [| apply Rabs_le; simpl; lra]).
  - exists 500%Z. simpl. lra.
  - exists 501%Z. simpl. lra.
Qed.

(** The mean of 0, 0.21, 0, 0, 0, 0 is 0.035: binary64 arithmetic rounds it
    to 0.03, and exact arithmetic to 0.04. *)
Example rounded_near_tie_2_decimals :
  Spec.mean [0; 0.21; 0; 0; 0; 0] = 0.035 /\
  Spec.rounded_near 2 0.03 0.035 /\
  Spec.rounded_near 2 0.04 0.035.
Proof.
  split; [unfold Spec.mean; simpl; lra |].
  unfold Spec.rounded_near, Spec.binary64_slack.
  split; (split; [| apply Rabs_le; simpl; lra]).
  - exists 3%Z. simpl. lra.
  - exists 4%Z. simpl. lra.
Qed.

(** A number has one rounding only. *)
Lemma rounded_to_decimals_unique (d : nat) (r1 r2 x : R) :
  Spec.rounded_to_decimals d r1 x -> Spec.rounded_to_decimals d r2 x -> r1 = r2.
Proof.
  intros [[z1 E1] B1] [[z2 E2] B2].
  assert (0 < 10 ^ d) as Hpos by (apply pow_lt; lra).
  assert (z1 = z2) as ->; [| congruence].
  assert (IZR z1 = r1 * 10 ^ d) as F1 by (rewrite E1; field; lra).
  assert (IZR z2 = r2 * 10 ^ d) as F2 by (rewrite E2; field; lra).
  assert (IZR z1 - IZR z2 < 1) as H12.
  { rewrite F1, F2.
    apply Rmult_lt_reg_r with (r := / 10 ^ d); [now apply Rinv_0_lt_compat |].
    replace ((r1 * 10 ^ d - r2 * 10 ^ d) * / 10 ^ d) with (r1 - r2) by (field; lra).
    replace (1 * / 10 ^ d) with (2 * (1 / (2 * 10 ^ d))) by (field; lra).
    lra. }
  assert (IZR z2 - IZR z1 < 1) as H21.
  { rewrite F1, F2.
    apply Rmult_lt_reg_r with (r := / 10 ^ d); [now apply Rinv_0_lt_compat |].
    replace ((r2 * 10 ^ d - r1 * 10 ^ d) * / 10 ^ d) with (r2 - r1) by (field; lra).
    replace (1 * / 10 ^ d) with (2 * (1 / (2 * 10 ^ d))) by (field; lra).
    lra. }
  rewrite <- minus_IZR in H12, H21.
  apply lt_IZR in H12, H21. lia.
Qed.

End Numbers.

End JsFacts.

(* ================================================================= *)
(** * The compatibility check *)
(* ================================================================= *)

Module CompatibilityFacts.

Import Js Schemas JsFacts CompatibilityExamples.
Local Open Scope string_scope.

(** ** Problem ids and reason strings *)

Lemma extractBaseProblemId_snoc (stem : string) (c : ascii) :
  extractBaseProblemId (stem ++ String c "") = stem.
Proof. apply slice_drops_last. Qed.

Example extractBaseProblemId_003401 : extractBaseProblemId "003401" = "00340".
Proof. reflexivity. Qed.

Example areLanguageEquivalent_zh_en : areLanguageEquivalent "003400" "003401" = true.
Proof. reflexivity. Qed.

Lemma curve_has_inj (p q : string) : curve_has p = curve_has q -> p = q.
Proof.
  unfold curve_has. intros H.
  apply string_append_cancel_l in H. now apply string_append_cancel_r in H.
Qed.

Lemma scores_has_inj (p q : string) : scores_has p = scores_has q -> p = q.
Proof.
  unfold scores_has. intros H.
  apply string_append_cancel_l in H. now apply string_append_cancel_r in H.
Qed.

Lemma curve_has_not_scores_has (p q : string) : curve_has p <> scores_has q.
Proof. unfold curve_has, scores_has. simpl. discriminate. Qed.

(** ** The loops, as filters *)

Lemma hasMatch_spec (options : option Options.t) (others : StringSet)
    (pid : string) :
  hasMatch options others pid = true <->
  exists y, In y others /\
            Spec.same_problem (allowLanguageDifference_set options) pid y.
Proof.
  unfold hasMatch, Spec.same_problem.
  destruct (allowLanguageDifference_set options).
  - rewrite existsb_exists. split; intros [y [Hy H]]; exists y; split; trivial.
    + apply String.eqb_eq in H. congruence.
    + apply String.eqb_eq. congruence.
  - rewrite Set_has_In. split.
    + intros H. now exists pid.
    + intros [y [Hy ->]]. assumption.
Qed.

Lemma same_problem_refl (language_variant : bool) (p : string) :
  Spec.same_problem language_variant p p.
Proof. unfold Spec.same_problem. now destruct language_variant. Qed.

Lemma not_hasMatch_spec (options : option Options.t) (side other : list string)
    (x : string) :
  In x (filter (fun p => negb (hasMatch options (Set_new other) p)) (Set_new side))
  <->
  Spec.only_in (Spec.same_problem (allowLanguageDifference_set options))
               side other x.
Proof.
  rewrite filter_In, Set_new_In, negb_true_iff. unfold Spec.only_in.
  split; intros [Hx H]; split; trivial.
  - intros y Hy Hsame.
    assert (hasMatch options (Set_new other) x = true) as E; [| congruence].
    apply hasMatch_spec. exists y. now rewrite Set_new_In.
  - destruct (hasMatch options (Set_new other) x) eqn:E; [| reflexivity].
    apply hasMatch_spec in E. destruct E as [y [Hy Hsame]].
    rewrite Set_new_In in Hy. now destruct (H y Hy).
Qed.

Lemma not_Set_has_spec (side other : list string) (x : string) :
  In x (filter (fun d => negb (Set_has (Set_new other) d)) (Set_new side)) <->
  Spec.only_in eq side other x.
Proof.
  rewrite filter_In, Set_new_In, negb_true_iff, Set_has_false, Set_new_In.
  unfold Spec.only_in. split; intros [Hx H]; split; trivial.
  - intros y Hy ->. contradiction.
  - intros Hin. exact (H x Hin eq_refl).
Qed.

Lemma lists_exactly_problem_filter (options : option Options.t)
    (side other : list string) :
  Spec.lists_exactly
    (filter (fun p => negb (hasMatch options (Set_new other) p)) (Set_new side))
    (Spec.only_in (Spec.same_problem (allowLanguageDifference_set options))
                  side other).
Proof.
  split.
  - apply NoDup_filter, Set_new_NoDup.
  - intros x. apply not_hasMatch_spec.
Qed.

Lemma lists_exactly_dimension_filter (side other : list string) :
  Spec.lists_exactly
    (filter (fun d => negb (Set_has (Set_new other) d)) (Set_new side))
    (Spec.only_in eq side other).
Proof.
  split.
  - apply NoDup_filter, Set_new_NoDup.
  - intros x. apply not_Set_has_spec.
Qed.

Lemma lists_exactly_nil (items : list string) (P : string -> Prop) :
  Spec.lists_exactly items P -> (forall x, ~ P x) -> items = [].
Proof.
  intros [_ H] Hnone. destruct items as [| x items]; [reflexivity |].
  destruct (Hnone x). apply H. now left.
Qed.

Lemma problemIdDifferences_filter (curve : Curve.t) (scores : JSONScores.t)
    (options : option Options.t) :
  problemIdDifferences curve scores options =
  (map curve_has
     (filter (fun p => negb (hasMatch options
                               (Set_new (Spec.score_problem_ids scores)) p))
             (Set_new (Curve.problem_ids curve)))
   ++ map scores_has
     (filter (fun q => negb (hasMatch options
                               (Set_new (Curve.problem_ids curve)) q))
             (Set_new (Spec.score_problem_ids scores))))%list.
Proof.
  unfold problemIdDifferences, Spec.score_problem_ids.
  now rewrite !for_of_push_filter.
Qed.

Lemma dimensionIdDifferences_filter (curve : Curve.t) (scores : JSONScores.t) :
  dimensionIdDifferences curve scores =
  (map curve_has
     (filter (fun d => negb (Set_has (Set_new (Spec.score_dimension_ids scores)) d))
             (Set_new (Curve.dimension_ids curve)))
   ++ map scores_has
     (filter (fun d => negb (Set_has (Set_new (Curve.dimension_ids curve)) d))
             (Set_new (Spec.score_dimension_ids scores))))%list.
Proof.
  unfold dimensionIdDifferences, Spec.score_dimension_ids.
  now rewrite !for_of_push_filter.
Qed.

(** The result is decided by the two difference arrays alone. *)
Lemma checkCompatibility_reasons (curve : Curve.t) (scores : JSONScores.t)
    (options : option Options.t) :
  checkCompatibility curve scores options =
  match (problemIdDifferences curve scores options
         ++ dimensionIdDifferences curve scores)%list with
  | [] => CompatibilityResult.compatible
  | reasons => CompatibilityResult.incompatible reasons
  end.
Proof.
  unfold checkCompatibility, push_all.
  destruct (problemIdDifferences curve scores options) as [| r rs];
    destruct (dimensionIdDifferences curve scores) as [| d ds];
    simpl; rewrite ?app_nil_r; reflexivity.
Qed.

(** No input makes the check answer [requires_override]. *)
Lemma checkCompatibility_never_requires_override (curve : Curve.t)
    (scores : JSONScores.t) (options : option Options.t)
    (warnings : list string) (differences : Differences.t) :
  checkCompatibility curve scores options
  <> CompatibilityResult.requires_override warnings differences.
Proof.
  rewrite checkCompatibility_reasons.
  destruct (problemIdDifferences curve scores options
            ++ dimensionIdDifferences curve scores)%list; discriminate.
Qed.

(** ** Examples *)

Example curve_AB_scores_AC :
  checkCompatibility (curve_with "abc1234" ["A"; "B"] ["discovery"])
                     (scores_with ["A"; "C"] ["discovery"]) None
  = CompatibilityResult.incompatible
      ["Curve has B but scores missing it"; "Scores has C but curve missing it"].
Proof. reflexivity. Qed.

Example language_variant_accepted :
  checkCompatibility (curve_with "abc1234" ["003400"] ["discovery"])
                     (scores_with ["003401"] ["discovery"]) language_variant
  = CompatibilityResult.compatible.
Proof. reflexivity. Qed.

Example language_variant_refused_by_default :
  checkCompatibility (curve_with "abc1234" ["003400"] ["discovery"])
                     (scores_with ["003401"] ["discovery"]) None
  = CompatibilityResult.incompatible
      ["Curve has 003400 but scores missing it";
       "Scores has 003401 but curve missing it"].
Proof. reflexivity. Qed.

(** ** Properties *)

(** C4, as amended.  When the problem-id sets and the dimension-id sets of a
    curve and of a scores object match, [checkCompatibility] answers
    [compatible], whatever the prompt version hash of the curve and of the
    report behind the scores: the check does not read the prompt version,
    and it never answers [requires_override]. *)
Theorem checkCompatibility_ignores_prompt_version
    (curve : Curve.t) (scores : JSONScores.t) (options : option Options.t) :
  Spec.sets_match curve scores ->
  checkCompatibility curve scores options = CompatibilityResult.compatible /\
  forall warnings differences,
    checkCompatibility curve scores options
    <> CompatibilityResult.requires_override warnings differences.
Proof.
  intros [Hproblems Hdimensions].
  split; [| intros; apply checkCompatibility_never_requires_override].
  rewrite checkCompatibility_reasons, problemIdDifferences_filter,
    dimensionIdDifferences_filter.
  rewrite (lists_exactly_nil _ _ (lists_exactly_problem_filter options _ _)).
  2: { intros x [Hx H]. apply (H x); [now apply Hproblems | apply same_problem_refl]. }
  rewrite (lists_exactly_nil _ _ (lists_exactly_problem_filter options _ _)).
  2: { intros x [Hx H]. apply (H x); [now apply Hproblems | apply same_problem_refl]. }
  rewrite (lists_exactly_nil _ _ (lists_exactly_dimension_filter _ _)).
  2: { intros x [Hx H]. apply (H x); [now apply Hdimensions | reflexivity]. }
  rewrite (lists_exactly_nil _ _ (lists_exactly_dimension_filter _ _)).
  2: { intros x [Hx H]. apply (H x); [now apply Hdimensions | reflexivity]. }
  reflexivity.
Qed.

Lemma checkCompatibility_ignores_prompt_version_witness :
  checkCompatibility (curve_with "abc1234" ["003400"; "005000"] ["discovery"])
                     (scores_with ["005000"; "003400"] ["discovery"]) None
  = CompatibilityResult.compatible /\
  forall warnings differences,
    checkCompatibility (curve_with "abc1234" ["003400"; "005000"] ["discovery"])
                       (scores_with ["005000"; "003400"] ["discovery"]) None
    <> CompatibilityResult.requires_override warnings differences.
Proof.
  apply (checkCompatibility_ignores_prompt_version
           (curve_with "abc1234" ["003400"; "005000"] ["discovery"])
           (scores_with ["005000"; "003400"] ["discovery"]) None).
  split; intros x; simpl; tauto.
Defined.

(** C4, the claim refuted.  The scores were extracted from a report
    generated under prompt version "def5678"; the curve was computed under
    "abc1234"; the structural sets match; the answer is [compatible], not
    [requires_override]. *)
Lemma prompt_version_mismatch_answers_compatible :
  JSONScores.source_report_id (scores_with ["003400"; "005000"] ["discovery"])
  = ReportJSON.report_id (report_with "def5678") /\
  Spec.sets_match (curve_with "abc1234" ["003400"; "005000"] ["discovery"])
                  (scores_with ["003400"; "005000"] ["discovery"]) /\
  Curve.prompt_version_hash (curve_with "abc1234" ["003400"; "005000"] ["discovery"])
  <> ReportJSON.prompt_version_hash (report_with "def5678") /\
  checkCompatibility (curve_with "abc1234" ["003400"; "005000"] ["discovery"])
                     (scores_with ["003400"; "005000"] ["discovery"]) None
  = CompatibilityResult.compatible /\
  ~ (exists warnings differences,
        checkCompatibility (curve_with "abc1234" ["003400"; "005000"] ["discovery"])
                           (scores_with ["003400"; "005000"] ["discovery"]) None
        = CompatibilityResult.requires_override warnings differences).
Proof.
  split; [reflexivity |].
  split; [split; intros x; simpl; tauto |].
  split; [discriminate |].
  split; [reflexivity |].
  intros [warnings [differences H]]. discriminate H.
Qed.

(** C6.  When the problem sets or the dimension sets of a curve and of a
    scores object differ, [checkCompatibility] answers [incompatible], and
    its reasons are: one "Curve has ..." string for every problem only the
    curve lists, one "Scores has ..." string for every problem only the
    scores list, and the same for the dimensions; each such item is reported
    once, and the two directions are reported separately. *)
Theorem checkCompatibility_one_reason_per_mismatch
    (curve : Curve.t) (scores : JSONScores.t) (options : option Options.t) :
  (exists x,
      Spec.only_in (Spec.same_problem (allowLanguageDifference_set options))
        (Curve.problem_ids curve) (Spec.score_problem_ids scores) x \/
      Spec.only_in (Spec.same_problem (allowLanguageDifference_set options))
        (Spec.score_problem_ids scores) (Curve.problem_ids curve) x \/
      Spec.only_in eq (Curve.dimension_ids curve) (Spec.score_dimension_ids scores) x \/
      Spec.only_in eq (Spec.score_dimension_ids scores) (Curve.dimension_ids curve) x) ->
  exists curve_problems scores_problems curve_dimensions scores_dimensions,
    Spec.lists_exactly curve_problems
      (Spec.only_in (Spec.same_problem (allowLanguageDifference_set options))
         (Curve.problem_ids curve) (Spec.score_problem_ids scores)) /\
    Spec.lists_exactly scores_problems
      (Spec.only_in (Spec.same_problem (allowLanguageDifference_set options))
         (Spec.score_problem_ids scores) (Curve.problem_ids curve)) /\
    Spec.lists_exactly curve_dimensions
      (Spec.only_in eq (Curve.dimension_ids curve) (Spec.score_dimension_ids scores)) /\
    Spec.lists_exactly scores_dimensions
      (Spec.only_in eq (Spec.score_dimension_ids scores) (Curve.dimension_ids curve)) /\
    checkCompatibility curve scores options =
    CompatibilityResult.incompatible
      (map curve_has curve_problems ++ map scores_has scores_problems
       ++ map curve_has curve_dimensions ++ map scores_has scores_dimensions)%list.
Proof.
  intros [x Hx].
  pose proof (lists_exactly_problem_filter options (Curve.problem_ids curve)
                (Spec.score_problem_ids scores)) as Hcp.
  pose proof (lists_exactly_problem_filter options (Spec.score_problem_ids scores)
                (Curve.problem_ids curve)) as Hsp.
  pose proof (lists_exactly_dimension_filter (Curve.dimension_ids curve)
                (Spec.score_dimension_ids scores)) as Hcd.
  pose proof (lists_exactly_dimension_filter (Spec.score_dimension_ids scores)
                (Curve.dimension_ids curve)) as Hsd.
  do 4 eexists. repeat (split; [eassumption |]).
  rewrite checkCompatibility_reasons, problemIdDifferences_filter,
    dimensionIdDifferences_filter, <- app_assoc.
  match goal with
  | |- match ?l with _ => _ end = _ =>
      destruct l as [| r rs] eqn:E; [exfalso | reflexivity]
  end.
  apply app_eq_nil in E. destruct E as [E1 E].
  apply app_eq_nil in E. destruct E as [E2 E].
  apply app_eq_nil in E. destruct E as [E3 E4].
  apply map_eq_nil in E1, E2, E3, E4.
  destruct Hx as [Hx | [Hx | [Hx | Hx]]].
  - apply Hcp in Hx. rewrite E1 in Hx. contradiction.
  - apply Hsp in Hx. rewrite E2 in Hx. contradiction.
  - apply Hcd in Hx. rewrite E3 in Hx. contradiction.
  - apply Hsd in Hx. rewrite E4 in Hx. contradiction.
Qed.

Lemma checkCompatibility_one_reason_per_mismatch_witness :
  exists curve_problems scores_problems curve_dimensions scores_dimensions,
    Spec.lists_exactly curve_problems (Spec.only_in eq ["A"; "B"] ["A"; "C"]) /\
    Spec.lists_exactly scores_problems (Spec.only_in eq ["A"; "C"] ["A"; "B"]) /\
    Spec.lists_exactly curve_dimensions
      (Spec.only_in eq ["discovery"] ["discovery"]) /\
    Spec.lists_exactly scores_dimensions
      (Spec.only_in eq ["discovery"] ["discovery"]) /\
    checkCompatibility (curve_with "abc1234" ["A"; "B"] ["discovery"])
                       (scores_with ["A"; "C"] ["discovery"]) None =
    CompatibilityResult.incompatible
      (map curve_has curve_problems ++ map scores_has scores_problems
       ++ map curve_has curve_dimensions ++ map scores_has scores_dimensions)%list.
Proof.
  apply (checkCompatibility_one_reason_per_mismatch
           (curve_with "abc1234" ["A"; "B"] ["discovery"])
           (scores_with ["A"; "C"] ["discovery"]) None).
  exists "B". left. split.
  - simpl. auto.
  - simpl. intros y [<- | [<- | []]]; discriminate.
Defined.




End CompatibilityFacts.

(* ================================================================= *)
(** * Curve computation, grading and report generation *)
(* ================================================================= *)

Module PipelineFacts.

Import Js Effect Schemas SyntheticData JsFacts Trace PipelineExamples.
Local Open Scope R_scope.
Local Open Scope string_scope.

(** ** Tactics *)

(** Decide the comparisons of [getGrade] on concrete numbers. *)
Ltac decide_geq :=
  unfold getGrade, geq_opt, geq; cbn [nth_error fallbackThresholds];
  repeat match goal with
         | |- context [Rge_dec ?x ?y] => destruct (Rge_dec x y); try lra
         end.

(** Run the effectful generators: only the monad, the list functions and
    the string comparisons are unfolded, the arithmetic is left as it is. *)
Ltac run_effects :=
  cbv [generateProblems generateReportJSON generateDimensionDependencies
       randomScore randomUuid now Math_random randomUUID Date_toISOString
       mapM bind ret PROBLEM_IDS DIMENSION_IDS
       Object_fromEntries Object_set Object_get Object_get_number
       fold_left fst snd String.eqb Ascii.eqb Bool.eqb
       random_tape random_reads uuid_tape uuid_reads clock_tape clock_reads
       problems_drawn problem_drawn drawn skip_random
       map combine seq flat_map existsb app Nat.add Nat.mul Nat.eqb orb
       ProblemInReport.problem_id ProblemInReport.dimension_scores
       ProblemInReport.objective_score].

Ltac run_example :=
  cbv [Spec.contributing_scores Spec.contributing_problems Spec.mean Spec.sum
       computeAbilities reduce length_num List.length
       DimensionDependencyConfig.dependencies
       DimensionProblemDependency.dimension_id
       DimensionProblemDependency.contributing_problem_ids
       ReportJSON.problems ReportJSON.abilities
       skewed_world skewed_random];
  run_effects.

(** ** Standard-deviation thresholds *)

Lemma clamp_spec (v : R) : clamp v = Spec.clamp v 0 1.
Proof.
  unfold clamp, Math_max, Math_min, Spec.clamp, Rmax, Rmin.
  destruct (Rle_dec 1 v), (Rlt_dec v 0), (Rlt_dec 1 v);
    try destruct (Rle_dec 0 1); try destruct (Rle_dec 0 v); lra.
Qed.

Lemma clamp_le (x y : R) : x <= y -> clamp x <= clamp y.
Proof.
  intros H. unfold clamp, Math_max, Math_min.
  apply Rle_max_compat_l, Rle_min_compat_l, H.
Qed.

Lemma clamp_id (x : R) : 0 <= x <= 1 -> clamp x = x.
Proof.
  intros H. rewrite clamp_spec. unfold Spec.clamp.
  destruct (Rlt_dec x 0), (Rlt_dec 1 x); lra.
Qed.

(** The two [reduce] calls compute the mean and the population variance. *)
Lemma computeStdDevThresholds_nonempty (values : list R) :
  values <> [] ->
  computeStdDevThresholds values =
  [ Math_round (clamp (Spec.mean values + Spec.population_stddev values) * 1000) / 1000;
    Math_round (clamp (Spec.mean values) * 1000) / 1000;
    Math_round (clamp (Spec.mean values - Spec.population_stddev values) * 1000) / 1000 ].
Proof.
  intros Hne. destruct values as [| v values]; [congruence |].
  unfold computeStdDevThresholds, Spec.population_stddev, Spec.population_variance,
    Spec.mean, Math_sqrt, length_num.
  rewrite reduce_sum, (reduce_sum_map (fun x => Math_pow (x - _) 2)).
  rewrite (map_ext _ _ (fun x => Math_pow_2 (x - _))).
  reflexivity.
Qed.

Lemma round3_le (x y : R) :
  x <= y ->
  Math_round (clamp x * 1000) / 1000 <= Math_round (clamp y * 1000) / 1000.
Proof.
  intros H. apply Rmult_le_compat_r; [lra |].
  apply Math_round_le, Rmult_le_compat_r; [lra | now apply clamp_le].
Qed.

Lemma computeStdDevThresholds_descending (values : list R) :
  Spec.descending (computeStdDevThresholds values).
Proof.
  destruct values as [| v rest].
  - exists 0.8, 0.5, 0.2. simpl. repeat split; lra.
  - rewrite computeStdDevThresholds_nonempty by discriminate.
    pose proof (sqrt_pos (Spec.population_variance (v :: rest))) as Hs.
    fold (Spec.population_stddev (v :: rest)) in Hs.
    do 3 eexists. split; [reflexivity |].
    split; apply Rle_ge, round3_le; lra.
Qed.

(** Scores 0.6 and 0.8: mean 0.7, standard deviation 0.1. *)
Example computeStdDevThresholds_06_08 :
  computeStdDevThresholds [0.6; 0.8] = [0.8; 0.7; 0.6].
Proof.
  rewrite computeStdDevThresholds_nonempty by discriminate.
  assert (Spec.mean [0.6; 0.8] = 0.7) as Hmean
    by (unfold Spec.mean; simpl; lra).
  assert (Spec.population_stddev [0.6; 0.8] = 0.1) as Hsd.
  { unfold Spec.population_stddev, Spec.population_variance.
    rewrite Hmean. apply sqrt_lem_1; simpl; lra. }
  rewrite Hmean, Hsd, !clamp_id by lra.
  rewrite (Math_round_eq 800), (Math_round_eq 700), (Math_round_eq 600) by lra.
  repeat f_equal; lra.
Qed.

(** A pool of one: the deviation is zero and the three thresholds agree. *)
Example computeStdDevThresholds_single :
  computeStdDevThresholds [0.5] = [0.5; 0.5; 0.5].
Proof.
  rewrite computeStdDevThresholds_nonempty by discriminate.
  assert (Spec.mean [0.5] = 0.5) as Hmean
    by (unfold Spec.mean; simpl; lra).
  assert (Spec.population_stddev [0.5] = 0) as Hsd.
  { unfold Spec.population_stddev, Spec.population_variance.
    rewrite Hmean. apply sqrt_lem_1; simpl; lra. }
  rewrite Hmean, Hsd, Rplus_0_r, Rminus_0_r, !clamp_id by lra.
  rewrite (Math_round_eq 500) by lra.
  repeat f_equal; lra.
Qed.

(** C1.  For a non-empty list of score values, [computeStdDevThresholds]
    returns three thresholds A, B, C: the mean plus the population standard
    deviation, the mean, and the mean minus the population standard
    deviation, each clamped into [0, 1] and then rounded to 3 decimals.
    Rounded is meant up to the rounding errors of the arithmetic: each
    threshold is a multiple of 0.001 within half a thousandth, and the
    tolerance, of the clamped value, whichever way a tie goes. *)
Theorem computeStdDevThresholds_standard_deviation (values : list R) :
  values <> [] ->
  Forall Spec.score_value values ->
  exists a b c,
    computeStdDevThresholds values = [a; b; c] /\
    Spec.rounded_near 3 a
      (Spec.clamp (Spec.mean values + Spec.population_stddev values) 0 1) /\
    Spec.rounded_near 3 b
      (Spec.clamp (Spec.mean values) 0 1) /\
    Spec.rounded_near 3 c
      (Spec.clamp (Spec.mean values - Spec.population_stddev values) 0 1).
Proof.
  intros Hne _. do 3 eexists. split.
  - now apply computeStdDevThresholds_nonempty.
  - rewrite !clamp_spec.
    split; [| split]; apply rounded_to_decimals_near, round_3_decimals.
Qed.

Lemma computeStdDevThresholds_standard_deviation_witness :
  exists a b c,
    computeStdDevThresholds [0.6; 0.8] = [a; b; c] /\
    Spec.rounded_near 3 a
      (Spec.clamp (Spec.mean [0.6; 0.8] + Spec.population_stddev [0.6; 0.8]) 0 1) /\
    Spec.rounded_near 3 b
      (Spec.clamp (Spec.mean [0.6; 0.8]) 0 1) /\
    Spec.rounded_near 3 c
      (Spec.clamp (Spec.mean [0.6; 0.8] - Spec.population_stddev [0.6; 0.8]) 0 1).
Proof.
  apply (computeStdDevThresholds_standard_deviation [0.6; 0.8]).
  - discriminate.
  - repeat (apply Forall_cons; [unfold Spec.score_value; lra |]).
    apply Forall_nil.
Defined.

(** C5.  [computeCurve] returns for every pool, and every threshold triple
    of the curve is in descending order, A >= B >= C: the three totals, the
    five dimensions and the six problems. *)
Theorem computeCurve_thresholds_descending (pool : ScorePool.t) (w : World) :
  exists curve w',
    computeCurve pool w = (Returned curve, w') /\
    Spec.descending
      (ThresholdDefinition.thresholds (TotalCurves.total_problem (Curve.totals curve))) /\
    Spec.descending
      (ThresholdDefinition.thresholds (TotalCurves.total_ability (Curve.totals curve))) /\
    Spec.descending
      (ThresholdDefinition.thresholds (TotalCurves.final_total (Curve.totals curve))) /\
    map AbilityCurve.dimension_id (Curve.ability_curves curve) = DIMENSION_IDS /\
    Forall (fun c => Spec.descending (AbilityCurve.thresholds c))
           (Curve.ability_curves curve) /\
    map ProblemCurve.problem_id (Curve.problem_curves curve) = PROBLEM_IDS /\
    Forall (fun c => Spec.descending (ProblemCurve.thresholds c))
           (Curve.problem_curves curve).
Proof.
  do 2 eexists. split; [reflexivity |].
  cbn [Curve.totals Curve.ability_curves Curve.problem_curves
       TotalCurves.total_problem TotalCurves.total_ability TotalCurves.final_total
       ThresholdDefinition.thresholds].
  split; [apply computeStdDevThresholds_descending |].
  split; [apply computeStdDevThresholds_descending |].
  split; [apply computeStdDevThresholds_descending |].
  split; [reflexivity |].
  split; [| split; [reflexivity |]].
  - apply Forall_map, Forall_forall. intros did _.
    apply computeStdDevThresholds_descending.
  - apply Forall_map, Forall_forall. intros pid _.
    apply computeStdDevThresholds_descending.
Qed.

(** ** Grade assignment *)

Example getGrade_on_the_boundary : getGrade 0.7 [0.85; 0.7; 0.55] = LetterGrade.B.
Proof. decide_geq. reflexivity. Qed.

Example getGrade_below_every_threshold :
  getGrade 0.3 [0.85; 0.7; 0.55] = LetterGrade.D.
Proof. decide_geq. reflexivity. Qed.

(** C2.  For every score and every threshold triple (A, B, C), [getGrade]
    returns one of the letters A, B, C, D, and which one is decided by the
    first threshold, in the order A, B, C, that the score reaches, a score
    equal to a threshold reaching it; D when it reaches none. *)
Theorem getGrade_total_inclusive (score a b c : R) :
  In (getGrade score [a; b; c])
     [LetterGrade.A; LetterGrade.B; LetterGrade.C; LetterGrade.D] /\
  (getGrade score [a; b; c] = LetterGrade.A <-> score >= a) /\
  (getGrade score [a; b; c] = LetterGrade.B <-> score < a /\ score >= b) /\
  (getGrade score [a; b; c] = LetterGrade.C <->
   score < a /\ score < b /\ score >= c) /\
  (getGrade score [a; b; c] = LetterGrade.D <->
   score < a /\ score < b /\ score < c).
Proof.
  unfold getGrade, geq_opt, geq. cbn [nth_error].
  destruct (Rge_dec score a), (Rge_dec score b), (Rge_dec score c);
    cbn [In]; repeat split; intros; try discriminate; try lra; auto 6;
    try (exfalso; lra).
Qed.

(** The generator's [applyCurve] has no compatibility check and no
    [throw]: it returns for every scores object and every curve, and a
    problem score with no entry of its problem id in the curve's problem
    curves is graded against the thresholds 0.8, 0.6, 0.4, and so is an
    ability score with no entry of its dimension id in the curve's ability
    curves. *)
Lemma applyCurve_without_check
    (scores : JSONScores.t) (curve : Curve.t) (w : World) :
  exists grades w',
    applyCurve scores curve w = (Returned grades, w') /\
    (forall p,
        In p (JSONScores.problem_scores scores) ->
        (forall c, In c (Curve.problem_curves curve) ->
                   ProblemCurve.problem_id c <> ProblemScore.problem_id p) ->
        In (ProblemGrade.mk (ProblemScore.problem_id p)
              (getGrade (ProblemScore.objective_score p) [0.8; 0.6; 0.4]))
           (CurvedLetterGrades.problem_grades grades)) /\
    (forall a,
        In a (JSONScores.ability_scores scores) ->
        (forall c, In c (Curve.ability_curves curve) ->
                   AbilityCurve.dimension_id c <> AbilityScore.dimension_id a) ->
        In (AbilityGrade.mk (AbilityScore.dimension_id a)
              (getGrade (AbilityScore.score a) [0.8; 0.6; 0.4]))
           (CurvedLetterGrades.ability_grades grades)).
Proof.
  do 2 eexists. split; [reflexivity |].
  cbn [CurvedLetterGrades.problem_grades CurvedLetterGrades.ability_grades].
  split.
  - intros p Hp Hnone. apply in_map_iff. exists p. split; [| assumption].
    replace (find _ (Curve.problem_curves curve)) with (@None ProblemCurve.t);
      [reflexivity |].
    symmetry. apply find_none_iff. intros c Hc.
    apply String.eqb_neq. now apply Hnone.
  - intros a Ha Hnone. apply in_map_iff. exists a. split; [| assumption].
    replace (find _ (Curve.ability_curves curve)) with (@None AbilityCurve.t);
      [reflexivity |].
    symmetry. apply find_none_iff. intros c Hc.
    apply String.eqb_neq. now apply Hnone.
Qed.

(** C3.  The code at the failing input.  Problem "999999" is scored with
    0.5; the curve lists problem "003400" only and has thresholds for that
    one only.  The claim has [applyCurve] raise an error; the generator's
    [applyCurve] returns, and grades "999999" C, which is the grade of 0.5
    on the substitute thresholds 0.8, 0.6, 0.4. *)
Lemma applyCurve_grades_problem_missing_from_curve :
  In (ProblemScore.mk "999999" 0.5 [])
     (JSONScores.problem_scores scores_with_new_problem) /\
  ~ In "999999" (Curve.problem_ids small_curve) /\
  (forall c, In c (Curve.problem_curves small_curve) ->
             ProblemCurve.problem_id c <> "999999") /\
  getGrade 0.5 [0.8; 0.6; 0.4] = LetterGrade.C /\
  exists grades w',
    applyCurve scores_with_new_problem small_curve world0 = (Returned grades, w') /\
    In (ProblemGrade.mk "999999" LetterGrade.C)
       (CurvedLetterGrades.problem_grades grades).
Proof.
  split; [simpl; auto |].
  split; [simpl; intros [E | []]; discriminate E |].
  split; [simpl; intros c [<- | []]; discriminate |].
  split; [decide_geq; reflexivity |].
  do 2 eexists. split; [reflexivity |].
  cbn. right. left. f_equal. decide_geq. reflexivity.
Qed.

(** C9, as amended.  Applying the same curve to the same scores twice gives
    two results with the same source id, curve id and grades; [computed_at]
    is the clock reading of each call, so the two results are identical
    exactly when the clock reads the same at both calls. *)
Theorem applyCurve_twice_differs_only_in_timestamp
    (scores : JSONScores.t) (curve : Curve.t) (w : World) :
  exists first second w1 w2,
    applyCurve scores curve w = (Returned first, w1) /\
    applyCurve scores curve w1 = (Returned second, w2) /\
    CurvedLetterGrades.computed_at first = clock_tape w (clock_reads w) /\
    CurvedLetterGrades.computed_at second = clock_tape w (S (clock_reads w)) /\
    CurvedLetterGrades.source_scores_id first
    = CurvedLetterGrades.source_scores_id second /\
    CurvedLetterGrades.curve_id first = CurvedLetterGrades.curve_id second /\
    CurvedLetterGrades.total_grades first = CurvedLetterGrades.total_grades second /\
    CurvedLetterGrades.ability_grades first
    = CurvedLetterGrades.ability_grades second /\
    CurvedLetterGrades.problem_grades first
    = CurvedLetterGrades.problem_grades second /\
    (first = second <->
     clock_tape w (clock_reads w) = clock_tape w (S (clock_reads w))).
Proof.
  do 4 eexists.
  split; [reflexivity |]. split; [reflexivity |].
  cbn [CurvedLetterGrades.computed_at CurvedLetterGrades.source_scores_id
       CurvedLetterGrades.curve_id CurvedLetterGrades.total_grades
       CurvedLetterGrades.ability_grades CurvedLetterGrades.problem_grades
       clock_tape clock_reads].
  repeat (split; [reflexivity |]).
  split.
  - intros H. now injection H.
  - intros H. now rewrite H.
Qed.

(** C9, the claim refuted.  With a clock that has advanced between the two
    calls, the two results differ. *)
Lemma applyCurve_twice_not_identical :
  exists first second w1 w2,
    applyCurve scores_with_new_problem small_curve world0 = (Returned first, w1) /\
    applyCurve scores_with_new_problem small_curve w1 = (Returned second, w2) /\
    first <> second.
Proof.
  do 4 eexists.
  split; [reflexivity |]. split; [reflexivity |].
  intros H. apply (f_equal CurvedLetterGrades.computed_at) in H.
  cbn in H. discriminate H.
Qed.

(** ** Pool construction *)




(** ** Report generation *)

Lemma generateProblems_run (w : World) :
  generateProblems w = (Returned (problems_drawn w), skip_random 36 w).
Proof. destruct w as [rt rr ut ur ct cr]. run_effects. reflexivity. Qed.

Lemma generateReportJSON_run (participantId : string) (w : World) :
  generateReportJSON participantId w =
  (Returned
     (ReportJSON.mk (uuid_tape w (uuid_reads w)) EVENT_ID PROMPT_VERSION_HASH
        (clock_tape w (clock_reads w)) participantId
        (problems_drawn w)
        (computeAbilities (problems_drawn w))
        (computeTotals (problems_drawn w) (computeAbilities (problems_drawn w)))
        tt),
   mkWorld (random_tape w) (36 + random_reads w)
           (uuid_tape w) (S (uuid_reads w))
           (clock_tape w) (S (clock_reads w))).
Proof.
  unfold generateReportJSON, bind at 1. rewrite generateProblems_run.
  reflexivity.
Qed.

Lemma problems_drawn_ids (w : World) :
  map ProblemInReport.problem_id (problems_drawn w) = PROBLEM_IDS.
Proof. reflexivity. Qed.

(** Every generated problem carries a score for every dimension, so that no
    read of [computeAbilities] is [undefined]. *)
Lemma generated_problems_have_every_dimension (w : World)
    (p : ProblemInReport.t) (did : string) :
  In p (problems_drawn w) -> In did DIMENSION_IDS ->
  exists v, Object_get (ProblemInReport.dimension_scores p) did = Some v.
Proof.
  intros Hp Hd.
  cbv [problems_drawn problem_drawn map combine seq fst snd
       PROBLEM_IDS DIMENSION_IDS In] in Hp, Hd.
  repeat match goal with
         | H : _ \/ _ |- _ => destruct H as [H | H]
         | H : False |- _ => destruct H
         end; subst p did; run_effects; eexists; reflexivity.
Qed.

Lemma computeAbilities_ids (problems : list ProblemInReport.t) :
  map AbilityDimensionInReport.dimension_id (computeAbilities problems)
  = DIMENSION_IDS.
Proof. unfold computeAbilities. rewrite map_map. apply map_id. Qed.

Lemma computeAbilities_mean (problems : list ProblemInReport.t)
    (a : AbilityDimensionInReport.t) :
  In a (computeAbilities problems) ->
  Spec.rounded_to_decimals 2 (AbilityDimensionInReport.score a)
    (Spec.mean
       (map (fun p => Object_get_number (ProblemInReport.dimension_scores p)
                        (AbilityDimensionInReport.dimension_id a))
            problems)).
Proof.
  unfold computeAbilities. rewrite in_map_iff. intros [did [<- _]].
  cbn [AbilityDimensionInReport.score AbilityDimensionInReport.dimension_id].
  rewrite reduce_sum. apply round_2_decimals.
Qed.

Lemma round_85 : Math_round (0.85 * 100) / 100 = 0.85.
Proof. rewrite (Math_round_eq 85) by lra. lra. Qed.

Lemma round_25 : Math_round (0.25 * 100) / 100 = 0.25.
Proof. rewrite (Math_round_eq 25) by lra. lra. Qed.

(** C8, as amended.  With [Math.random()] returning numbers between 0 and
    1, a generated report has the six configured problems, each with a
    score for every one of the five dimensions, and the ability score of a
    dimension is the arithmetic mean of that dimension's scores over all
    the problems of the report, rounded to 2 decimals: a multiple of 0.01
    within half a hundredth, and the tolerance, of that mean, whichever way
    a tie goes.  The dimension-problem dependencies play no part. *)
Theorem ability_score_averages_all_problems (participantId : string) (w : World) :
  (forall n, Spec.score_value (random_tape w n)) ->
  exists report w',
    generateReportJSON participantId w = (Returned report, w') /\
    map ProblemInReport.problem_id (ReportJSON.problems report) = PROBLEM_IDS /\
    (forall p did,
        In p (ReportJSON.problems report) -> In did DIMENSION_IDS ->
        exists v, Object_get (ProblemInReport.dimension_scores p) did = Some v) /\
    map AbilityDimensionInReport.dimension_id (ReportJSON.abilities report)
    = DIMENSION_IDS /\
    (forall a,
        In a (ReportJSON.abilities report) ->
        Spec.rounded_near 2 (AbilityDimensionInReport.score a)
          (Spec.mean
             (map (fun p => Object_get_number (ProblemInReport.dimension_scores p)
                              (AbilityDimensionInReport.dimension_id a))
                  (ReportJSON.problems report)))).
Proof.
  intros _. eexists. eexists. split; [apply generateReportJSON_run |].
  cbn [ReportJSON.problems ReportJSON.abilities].
  split; [apply problems_drawn_ids |].
  split; [apply generated_problems_have_every_dimension |].
  split; [apply computeAbilities_ids |].
  intros a Ha. now apply rounded_to_decimals_near, computeAbilities_mean.
Qed.

Lemma ability_score_averages_all_problems_witness :
  exists report w',
    generateReportJSON "participant_001" skewed_world = (Returned report, w') /\
    forall a,
      In a (ReportJSON.abilities report) ->
      Spec.rounded_near 2 (AbilityDimensionInReport.score a)
        (Spec.mean
           (map (fun p => Object_get_number (ProblemInReport.dimension_scores p)
                            (AbilityDimensionInReport.dimension_id a))
                (ReportJSON.problems report))).
Proof.
  destruct (ability_score_averages_all_problems "participant_001" skewed_world)
    as [report [w' [Hrun [_ [_ [_ Hmean]]]]]].
  - intros n. cbn [random_tape skewed_world]. unfold skewed_random, Spec.score_value.
    destruct ((n =? 24) || (n =? 30))%nat; lra.
  - exists report, w'. split; [exact Hrun | exact Hmean].
Defined.

(** C8, the claim refuted.  The dimension map lists four problems for
    "discovery"; their "discovery" scores are all 0.85, so the mean over the
    problems that test the dimension is 0.85; the two other problems score
    0.25, and the reported ability score is 0.65. *)
Lemma ability_score_counts_problems_outside_the_map :
  exists config w1 report w2,
    generateDimensionDependencies skewed_world = (Returned config, w1) /\
    generateReportJSON "participant_001" w1 = (Returned report, w2) /\
    Spec.contributing_problems config "discovery"
    = ["003400"; "003401"; "005000"; "005001"] /\
    Spec.mean (Spec.contributing_scores config (ReportJSON.problems report) "discovery")
    = 0.85 /\
    In (AbilityDimensionInReport.mk "discovery" 0.65) (ReportJSON.abilities report).
Proof.
  do 4 eexists.
  split; [unfold generateDimensionDependencies, bind, now, Date_toISOString, ret;
          reflexivity |].
  split; [apply generateReportJSON_run |].
  split; [reflexivity |].
  split.
  - run_example. rewrite !round_85. simpl INR. lra.
  - run_example. left. f_equal.
    rewrite !round_85, !round_25. simpl INR.
    rewrite (Math_round_eq 65) by lra. lra.
Qed.

End PipelineFacts.

(* ================================================================= *)
(** * Problem ids and the compatibility check, continued *)
(* ================================================================= *)

Module SchemasFacts.

Import Js Schemas JsFacts CompatibilityExamples CompatibilityFacts.
Local Open Scope string_scope.

(** ** Problem ids *)

Lemma substring_all (t : string) : substring 0 (String.length t) t = t.
Proof. induction t as [| c t IH]; simpl; [reflexivity | now rewrite IH]. Qed.

Lemma substring_suffix (s t : string) :
  substring (String.length s) (String.length t) (s ++ t) = t.
Proof.
  induction s as [| c s IH]; simpl; [apply substring_all | exact IH].
Qed.

(** [slice(-1)] keeps the last character. *)
Lemma slice_keeps_last (stem : string) (c : ascii) :
  slice (stem ++ String c "") (-1) None = String c "".
Proof.
  unfold slice, relative_index.
  rewrite string_length_append. simpl String.length.
  change (-1 <? 0)%Z with true. cbv iota.
  replace (Z.of_nat (String.length stem + 1) + -1)%Z
    with (Z.of_nat (String.length stem)) by lia.
  rewrite Z.max_l by lia.
  assert ((Z.of_nat (String.length stem)
           >=? Z.of_nat (String.length stem + 1))%Z = false) as E.
  { rewrite Z.geb_leb. apply Z.leb_gt. lia. }
  rewrite E, Nat2Z.id.
  replace (Z.to_nat (Z.of_nat (String.length stem + 1)
                     - Z.of_nat (String.length stem)))
    with (String.length (String c "")) by (simpl; lia).
  apply substring_suffix.
Qed.

(** [slice(0, -1)] and [slice(-1)] cut a string in two. *)
Lemma slice_split (s : string) :
  slice s 0 (Some (-1)%Z) ++ slice s (-1) None = s.
Proof.
  destruct s as [| a s'] eqn:E; [reflexivity |].
  rewrite <- E. destruct (string_snoc s) as [stem [c ->]];
    [rewrite E; discriminate |].
  now rewrite slice_drops_last, slice_keeps_last.
Qed.

(** X1.  The base id of [extractBaseProblemId] followed by the last
    character that [extractLanguage] reads gives the problem id back, for
    every string; the base id of a non-empty id is one character shorter. *)
Theorem base_id_and_last_digit_rebuild_the_id (problemId : string) :
  extractBaseProblemId problemId ++ slice problemId (-1) None = problemId /\
  (problemId <> "" ->
   String.length (extractBaseProblemId problemId) = String.length problemId - 1).
Proof.
  split; [apply slice_split |].
  intros H. destruct (string_snoc problemId H) as [stem [c ->]].
  rewrite extractBaseProblemId_snoc, string_length_append. simpl. lia.
Qed.

Lemma base_id_and_last_digit_rebuild_the_id_witness :
  extractBaseProblemId "003401" ++ slice "003401" (-1) None = "003401" /\
  String.length (extractBaseProblemId "003401") = String.length "003401" - 1.
Proof.
  destruct (base_id_and_last_digit_rebuild_the_id "003401") as [H1 H2].
  split; [exact H1 | apply H2; discriminate].
Defined.

Lemma extractLanguage_zh (problemId : string) :
  extractLanguage problemId = zh <-> exists stem, problemId = stem ++ "0".
Proof.
  unfold extractLanguage. split.
  - destruct (String.eqb_spec (slice problemId (-1) None) "0") as [E | _];
      [| discriminate].
    intros _. exists (slice problemId 0 (Some (-1)%Z)).
    rewrite <- E. symmetry. apply slice_split.
  - intros [stem ->]. now rewrite slice_keeps_last.
Qed.

(** X2.  [extractLanguage] answers "zh" exactly for the ids that end with
    the character 0, and "en" for every other string, the empty string and
    ids ending with a digit other than 1 included. *)
Theorem extractLanguage_reads_the_last_digit (problemId : string) :
  (extractLanguage problemId = zh <-> exists stem, problemId = stem ++ "0") /\
  (extractLanguage problemId = en <-> forall stem, problemId <> stem ++ "0").
Proof.
  split; [apply extractLanguage_zh |].
  split.
  - intros Hen stem ->.
    assert (extractLanguage (stem ++ "0") = zh) as Hzh
      by (apply extractLanguage_zh; now exists stem).
    congruence.
  - intros Hno. destruct (extractLanguage problemId) eqn:E; [| reflexivity].
    apply extractLanguage_zh in E. destruct E as [stem ->].
    now destruct (Hno stem).
Qed.

Example extractLanguage_of_the_empty_string : extractLanguage "" = en.
Proof. reflexivity. Qed.

(** X3.  Two non-empty ids are language-equivalent exactly when they are the
    same up to their last character. *)
Theorem language_equivalent_ids_share_the_stem (id1 id2 : string) :
  id1 <> "" -> id2 <> "" ->
  (areLanguageEquivalent id1 id2 = true <->
   exists stem c1 c2, id1 = stem ++ String c1 "" /\ id2 = stem ++ String c2 "").
Proof.
  intros H1 H2. unfold areLanguageEquivalent. rewrite String.eqb_eq. split.
  - intros E.
    destruct (string_snoc id1 H1) as [s1 [c1 ->]].
    destruct (string_snoc id2 H2) as [s2 [c2 ->]].
    rewrite !extractBaseProblemId_snoc in E. subst s2. now exists s1, c1, c2.
  - intros [stem [c1 [c2 [-> ->]]]]. now rewrite !extractBaseProblemId_snoc.
Qed.

Lemma language_equivalent_ids_share_the_stem_witness :
  areLanguageEquivalent "003400" "003401" = true <->
  exists stem c1 c2,
    "003400" = stem ++ String c1 "" /\ "003401" = stem ++ String c2 "".
Proof.
  apply (language_equivalent_ids_share_the_stem "003400" "003401"); discriminate.
Defined.

(** X4.  Among ids that end with a language digit, 0 or 1, an id is
    determined by its base id and its language: two language-equivalent ids
    of the same language are equal. *)
Theorem problem_id_determined_by_base_and_language
    (stem1 stem2 : string) (c1 c2 : ascii) :
  Spec.language_digit c1 -> Spec.language_digit c2 ->
  areLanguageEquivalent (stem1 ++ String c1 "") (stem2 ++ String c2 "") = true ->
  extractLanguage (stem1 ++ String c1 "") = extractLanguage (stem2 ++ String c2 "") ->
  stem1 ++ String c1 "" = stem2 ++ String c2 "".
Proof.
  intros D1 D2 Hbase Hlang.
  unfold areLanguageEquivalent in Hbase. apply String.eqb_eq in Hbase.
  rewrite !extractBaseProblemId_snoc in Hbase. subst stem2.
  unfold extractLanguage in Hlang. rewrite !slice_keeps_last in Hlang.
  destruct D1 as [-> | ->], D2 as [-> | ->]; try reflexivity;
    simpl in Hlang; discriminate.
Qed.

Lemma problem_id_determined_by_base_and_language_witness :
  "00340" ++ String "1" "" = "00340" ++ String "1" "".
Proof.
  apply (problem_id_determined_by_base_and_language "00340" "00340" "1" "1");
    try (right; reflexivity); reflexivity.
Defined.

(** ** The compatibility check *)

(** Which strings the problem loops push. *)
Lemma curve_has_in_problem_differences (curve : Curve.t) (scores : JSONScores.t)
    (options : option Options.t) (p : string) :
  In (curve_has p) (problemIdDifferences curve scores options) <->
  Spec.only_in (Spec.same_problem (allowLanguageDifference_set options))
    (Curve.problem_ids curve) (Spec.score_problem_ids scores) p.
Proof.
  rewrite problemIdDifferences_filter, in_app_iff, <- not_hasMatch_spec.
  rewrite !in_map_iff. split.
  - intros [[x [E Hx]] | [x [E _]]].
    + apply curve_has_inj in E. now subst.
    + symmetry in E. now apply curve_has_not_scores_has in E.
  - intros H. left. now exists p.
Qed.

Lemma scores_has_in_problem_differences (curve : Curve.t) (scores : JSONScores.t)
    (options : option Options.t) (q : string) :
  In (scores_has q) (problemIdDifferences curve scores options) <->
  Spec.only_in (Spec.same_problem (allowLanguageDifference_set options))
    (Spec.score_problem_ids scores) (Curve.problem_ids curve) q.
Proof.
  rewrite problemIdDifferences_filter, in_app_iff, <- not_hasMatch_spec.
  rewrite !in_map_iff. split.
  - intros [[x [E _]] | [x [E Hx]]].
    + now apply curve_has_not_scores_has in E.
    + apply scores_has_inj in E. now subst.
  - intros H. right. now exists q.
Qed.

Lemma problem_difference_cases (curve : Curve.t) (scores : JSONScores.t)
    (options : option Options.t) (r : string) :
  In r (problemIdDifferences curve scores options) ->
  (exists p, r = curve_has p) \/ (exists q, r = scores_has q).
Proof.
  rewrite problemIdDifferences_filter, in_app_iff, !in_map_iff.
  intros [[x [E _]] | [x [E _]]]; [left | right]; now exists x.
Qed.

Lemma lists_exactly_nil_iff (items : list string) (P : string -> Prop) :
  Spec.lists_exactly items P -> (items = [] <-> forall x, ~ P x).
Proof.
  intros L. split.
  - intros -> x Hx. now apply L in Hx.
  - apply lists_exactly_nil, L.
Qed.

(** No reason is produced exactly when nothing is listed on one side only. *)
Lemma no_reasons_iff (curve : Curve.t) (scores : JSONScores.t)
    (options : option Options.t) :
  (problemIdDifferences curve scores options
   ++ dimensionIdDifferences curve scores)%list = [] <->
  (forall x,
      ~ Spec.only_in (Spec.same_problem (allowLanguageDifference_set options))
          (Curve.problem_ids curve) (Spec.score_problem_ids scores) x) /\
  (forall x,
      ~ Spec.only_in (Spec.same_problem (allowLanguageDifference_set options))
          (Spec.score_problem_ids scores) (Curve.problem_ids curve) x) /\
  (forall x,
      ~ Spec.only_in eq (Curve.dimension_ids curve)
          (Spec.score_dimension_ids scores) x) /\
  (forall x,
      ~ Spec.only_in eq (Spec.score_dimension_ids scores)
          (Curve.dimension_ids curve) x).
Proof.
  rewrite problemIdDifferences_filter, dimensionIdDifferences_filter.
  rewrite <- (lists_exactly_nil_iff _ _ (lists_exactly_problem_filter options
                (Curve.problem_ids curve) (Spec.score_problem_ids scores))).
  rewrite <- (lists_exactly_nil_iff _ _ (lists_exactly_problem_filter options
                (Spec.score_problem_ids scores) (Curve.problem_ids curve))).
  rewrite <- (lists_exactly_nil_iff _ _ (lists_exactly_dimension_filter
                (Curve.dimension_ids curve) (Spec.score_dimension_ids scores))).
  rewrite <- (lists_exactly_nil_iff _ _ (lists_exactly_dimension_filter
                (Spec.score_dimension_ids scores) (Curve.dimension_ids curve))).
  split.
  - intros E.
    apply app_eq_nil in E. destruct E as [E12 E34].
    apply app_eq_nil in E12, E34. destruct E12 as [E1 E2], E34 as [E3 E4].
    apply map_eq_nil in E1, E2, E3, E4. auto.
  - intros [E1 [E2 [E3 E4]]]. now rewrite E1, E2, E3, E4.
Qed.

(** X5.  [checkCompatibility] answers [compatible] exactly when no problem
    and no dimension is listed on one side only (problems being compared as
    the language option says); in every other case it answers
    [incompatible] with at least one reason. *)
Theorem checkCompatibility_compatible_iff
    (curve : Curve.t) (scores : JSONScores.t) (options : option Options.t) :
  (checkCompatibility curve scores options = CompatibilityResult.compatible <->
   (forall x,
       ~ Spec.only_in (Spec.same_problem (allowLanguageDifference_set options))
           (Curve.problem_ids curve) (Spec.score_problem_ids scores) x) /\
   (forall x,
       ~ Spec.only_in (Spec.same_problem (allowLanguageDifference_set options))
           (Spec.score_problem_ids scores) (Curve.problem_ids curve) x) /\
   (forall x,
       ~ Spec.only_in eq (Curve.dimension_ids curve)
           (Spec.score_dimension_ids scores) x) /\
   (forall x,
       ~ Spec.only_in eq (Spec.score_dimension_ids scores)
           (Curve.dimension_ids curve) x)) /\
  (checkCompatibility curve scores options = CompatibilityResult.compatible \/
   exists reason reasons,
     checkCompatibility curve scores options
     = CompatibilityResult.incompatible (reason :: reasons)).
Proof.
  rewrite <- no_reasons_iff, checkCompatibility_reasons.
  destruct (problemIdDifferences curve scores options
            ++ dimensionIdDifferences curve scores)%list as [| r rs].
  - split; [tauto | now left].
  - split; [split; discriminate | right; now exists r, rs].
Qed.

(** X6.  Setting the language option only removes reasons: every problem
    reason given with the option is also given without it, and a pair that
    is compatible without the option is compatible with it. *)
Theorem language_option_only_removes_reasons
    (curve : Curve.t) (scores : JSONScores.t) (strict lenient : option Options.t) :
  allowLanguageDifference_set strict = false ->
  allowLanguageDifference_set lenient = true ->
  (forall reason,
      In reason (problemIdDifferences curve scores lenient) ->
      In reason (problemIdDifferences curve scores strict)) /\
  (checkCompatibility curve scores strict = CompatibilityResult.compatible ->
   checkCompatibility curve scores lenient = CompatibilityResult.compatible).
Proof.
  intros Hs Hl.
  assert (Hweak : forall side other x,
             Spec.only_in (Spec.same_problem true) side other x ->
             Spec.only_in (Spec.same_problem false) side other x).
  { intros side other x [Hx H]. split; [assumption |].
    intros y Hy E. apply (H y Hy). unfold Spec.same_problem in *. now subst. }
  assert (Hsub : forall reason,
             In reason (problemIdDifferences curve scores lenient) ->
             In reason (problemIdDifferences curve scores strict)).
  { intros reason Hin.
    destruct (problem_difference_cases _ _ _ _ Hin) as [[p ->] | [q ->]].
    - apply curve_has_in_problem_differences in Hin.
      apply curve_has_in_problem_differences.
      rewrite Hl in Hin. rewrite Hs. now apply Hweak.
    - apply scores_has_in_problem_differences in Hin.
      apply scores_has_in_problem_differences.
      rewrite Hl in Hin. rewrite Hs. now apply Hweak. }
  split; [exact Hsub |].
  rewrite !checkCompatibility_reasons.
  destruct (problemIdDifferences curve scores strict
            ++ dimensionIdDifferences curve scores)%list as [| r rs] eqn:E;
    [| discriminate].
  intros _. apply app_eq_nil in E. destruct E as [E1 E2].
  destruct (problemIdDifferences curve scores lenient) as [| r rs] eqn:E'.
  - now rewrite E2.
  - exfalso. assert (In r (problemIdDifferences curve scores strict)) as Hin
      by (apply Hsub; now left).
    now rewrite E1 in Hin.
Qed.

Lemma language_option_only_removes_reasons_witness :
  (forall reason,
      In reason (problemIdDifferences (curve_with "abc1234" ["003400"] ["discovery"])
                   (scores_with ["003401"] ["discovery"]) language_variant) ->
      In reason (problemIdDifferences (curve_with "abc1234" ["003400"] ["discovery"])
                   (scores_with ["003401"] ["discovery"]) None)) /\
  (checkCompatibility (curve_with "abc1234" ["003400"] ["discovery"])
                      (scores_with ["003401"] ["discovery"]) None
   = CompatibilityResult.compatible ->
   checkCompatibility (curve_with "abc1234" ["003400"] ["discovery"])
                      (scores_with ["003401"] ["discovery"]) language_variant
   = CompatibilityResult.compatible).
Proof.
  apply (language_option_only_removes_reasons
           (curve_with "abc1234" ["003400"] ["discovery"])
           (scores_with ["003401"] ["discovery"]) None language_variant);
    reflexivity.
Defined.

Lemma only_in_same_set (same : string -> string -> Prop)
    (side side' other other' : list string) (x : string) :
  Spec.same_set side side' -> Spec.same_set other other' ->
  Spec.only_in same side other x -> Spec.only_in same side' other' x.
Proof.
  intros Hs Ho [Hx H]. split; [now apply Hs |].
  intros y Hy. apply H. now apply Ho.
Qed.

Lemma same_set_sym (l1 l2 : list string) :
  Spec.same_set l1 l2 -> Spec.same_set l2 l1.
Proof. intros H x. symmetry. apply H. Qed.

(** X7.  Whether [checkCompatibility] answers [compatible] depends on the
    sets of ids only: the order of the ids and their repetitions in the
    curve and in the scores make no difference. *)
Theorem checkCompatibility_depends_on_the_sets_only
    (curve curve' : Curve.t) (scores scores' : JSONScores.t)
    (options : option Options.t) :
  Spec.same_set (Curve.problem_ids curve) (Curve.problem_ids curve') ->
  Spec.same_set (Curve.dimension_ids curve) (Curve.dimension_ids curve') ->
  Spec.same_set (Spec.score_problem_ids scores) (Spec.score_problem_ids scores') ->
  Spec.same_set (Spec.score_dimension_ids scores)
                (Spec.score_dimension_ids scores') ->
  (checkCompatibility curve scores options = CompatibilityResult.compatible <->
   checkCompatibility curve' scores' options = CompatibilityResult.compatible).
Proof.
  intros Hcp Hcd Hsp Hsd.
  assert (Hnil : forall c s, checkCompatibility c s options
                             = CompatibilityResult.compatible <->
                             (problemIdDifferences c s options
                              ++ dimensionIdDifferences c s)%list = []).
  { intros c s. rewrite checkCompatibility_reasons.
    destruct (problemIdDifferences c s options ++ dimensionIdDifferences c s)%list;
      split; congruence. }
  rewrite !Hnil, !no_reasons_iff.
  split; intros [H1 [H2 [H3 H4]]]; repeat split; intros x Hx.
  - apply (H1 x). revert Hx. apply only_in_same_set; now apply same_set_sym.
  - apply (H2 x). revert Hx. apply only_in_same_set; now apply same_set_sym.
  - apply (H3 x). revert Hx. apply only_in_same_set; now apply same_set_sym.
  - apply (H4 x). revert Hx. apply only_in_same_set; now apply same_set_sym.
  - apply (H1 x). revert Hx. now apply only_in_same_set.
  - apply (H2 x). revert Hx. now apply only_in_same_set.
  - apply (H3 x). revert Hx. now apply only_in_same_set.
  - apply (H4 x). revert Hx. now apply only_in_same_set.
Qed.

Lemma checkCompatibility_depends_on_the_sets_only_witness :
  checkCompatibility (curve_with "abc1234" ["003400"; "005000"] ["discovery"])
                     (scores_with ["003400"; "005000"] ["discovery"]) None
  = CompatibilityResult.compatible <->
  checkCompatibility
    (curve_with "abc1234" ["005000"; "003400"; "005000"] ["discovery"])
    (scores_with ["003400"; "005000"] ["discovery"; "discovery"]) None
  = CompatibilityResult.compatible.
Proof.
  apply (checkCompatibility_depends_on_the_sets_only
           (curve_with "abc1234" ["003400"; "005000"] ["discovery"])
           (curve_with "abc1234" ["005000"; "003400"; "005000"] ["discovery"])
           (scores_with ["003400"; "005000"] ["discovery"])
           (scores_with ["003400"; "005000"] ["discovery"; "discovery"]) None);
    intros x; simpl; tauto.
Defined.

End SchemasFacts.

(* ================================================================= *)
(** * The generator and the curve pipeline, continued *)
(* ================================================================= *)

Module GeneratorFacts.

Import Js Effect Schemas SyntheticData JsFacts Trace PipelineExamples PipelineFacts.
Local Open Scope R_scope.
Local Open Scope string_scope.

(** ** Grades follow the scores *)

(** X8.  [getGrade] is monotone in the score, for every thresholds array,
    whatever its length and order: a higher score never gets a worse
    grade. *)
Theorem getGrade_monotone (score1 score2 : R) (thresholds : list R) :
  score1 <= score2 ->
  Spec.at_least_as_good (getGrade score2 thresholds) (getGrade score1 thresholds).
Proof.
  intros Hle. unfold Spec.at_least_as_good, getGrade, geq_opt, geq.
  destruct (nth_error thresholds 0) as [a |],
           (nth_error thresholds 1) as [b |],
           (nth_error thresholds 2) as [c |];
    repeat match goal with
           | |- context [Rge_dec ?x ?y] => destruct (Rge_dec x y)
           end; simpl; try lia; exfalso; lra.
Qed.

Lemma getGrade_monotone_witness :
  Spec.at_least_as_good (getGrade 0.9 [0.85; 0.7; 0.55])
                        (getGrade 0.6 [0.85; 0.7; 0.55]).
Proof. apply (getGrade_monotone 0.6 0.9 [0.85; 0.7; 0.55]). lra. Defined.

(** ** Thresholds are score values *)

Lemma clamp_score_value (x : R) : Spec.score_value (clamp x).
Proof.
  rewrite clamp_spec. unfold Spec.clamp, Spec.score_value.
  destruct (Rlt_dec x 0), (Rlt_dec 1 x); lra.
Qed.

Lemma Math_round_IZR (z : Z) : Math_round (IZR z) = IZR z.
Proof. apply Math_round_eq. lra. Qed.

Lemma round3_score_value (x : R) :
  Spec.score_value x -> Spec.score_value (Math_round (x * 1000) / 1000).
Proof.
  intros [H0 H1]. unfold Spec.score_value.
  pose proof (Math_round_le (0 * 1000) (x * 1000)) as Hlo.
  pose proof (Math_round_le (x * 1000) (1 * 1000)) as Hhi.
  replace (0 * 1000) with (IZR 0) in Hlo by lra.
  replace (1 * 1000) with (IZR 1000) in Hhi by lra.
  rewrite Math_round_IZR in Hlo, Hhi.
  split.
  - apply Rmult_le_reg_r with (r := 1000); [lra |].
    replace (Math_round (x * 1000) / 1000 * 1000)
      with (Math_round (x * 1000)) by (field; lra).
    lra.
  - apply Rmult_le_reg_r with (r := 1000); [lra |].
    replace (Math_round (x * 1000) / 1000 * 1000)
      with (Math_round (x * 1000)) by (field; lra).
    lra.
Qed.

Lemma computeStdDevThresholds_score_values (values : list R) :
  Forall Spec.score_value (computeStdDevThresholds values).
Proof.
  destruct values as [| v rest].
  - simpl. repeat (apply Forall_cons; [unfold Spec.score_value; lra |]).
    apply Forall_nil.
  - rewrite computeStdDevThresholds_nonempty by discriminate.
    repeat (apply Forall_cons; [apply round3_score_value, clamp_score_value |]).
    apply Forall_nil.
Qed.

(** What [computeCurve] returns, and what it reads: one UUID and the
    clock. *)
Lemma computeCurve_steps (pool : ScorePool.t) (w : World) :
  computeCurve pool w =
  (Returned (curve_computed pool w),
   mkWorld (random_tape w) (random_reads w)
           (uuid_tape w) (S (uuid_reads w))
           (clock_tape w) (S (clock_reads w))).
Proof. reflexivity. Qed.

(** X9.  For every pool whose scores are score values, every threshold of
    the computed curve lies between 0 and 1: the three totals, every
    dimension and every problem. *)
Theorem computeCurve_thresholds_are_score_values (pool : ScorePool.t) (w : World) :
  Forall Spec.holds_score_values (ScorePool.scores pool) ->
  exists curve w',
    computeCurve pool w = (Returned curve, w') /\
    Forall Spec.score_value
      (ThresholdDefinition.thresholds (TotalCurves.total_problem (Curve.totals curve))) /\
    Forall Spec.score_value
      (ThresholdDefinition.thresholds (TotalCurves.total_ability (Curve.totals curve))) /\
    Forall Spec.score_value
      (ThresholdDefinition.thresholds (TotalCurves.final_total (Curve.totals curve))) /\
    Forall (fun c => Forall Spec.score_value (AbilityCurve.thresholds c))
           (Curve.ability_curves curve) /\
    Forall (fun c => Forall Spec.score_value (ProblemCurve.thresholds c))
           (Curve.problem_curves curve).
Proof.
  intros _. do 2 eexists. split; [apply computeCurve_steps |].
  cbn [curve_computed Curve.totals Curve.ability_curves Curve.problem_curves
       TotalCurves.total_problem TotalCurves.total_ability TotalCurves.final_total
       ThresholdDefinition.thresholds].
  split; [apply computeStdDevThresholds_score_values |].
  split; [apply computeStdDevThresholds_score_values |].
  split; [apply computeStdDevThresholds_score_values |].
  split.
  - apply Forall_map, Forall_forall. intros did _.
    apply computeStdDevThresholds_score_values.
  - apply Forall_map, Forall_forall. intros pid _.
    apply computeStdDevThresholds_score_values.
Qed.

Lemma computeCurve_thresholds_are_score_values_witness :
  exists curve w',
    computeCurve pool_over_other_problems world0 = (Returned curve, w') /\
    Forall (fun c => Forall Spec.score_value (ProblemCurve.thresholds c))
           (Curve.problem_curves curve).
Proof.
  destruct (computeCurve_thresholds_are_score_values pool_over_other_problems world0)
    as [curve [w' [Hrun [_ [_ [_ [_ Hproblems]]]]]]].
  - apply Forall_cons; [| apply Forall_nil].
    unfold Spec.holds_score_values, Spec.score_value.
    cbn [pool_over_other_problems scores_over_other_problems ScorePool.scores
         JSONScores.totals JSONScores.ability_scores JSONScores.problem_scores
         TotalScores.total_problem_score TotalScores.total_ability_score
         TotalScores.final_total_score].
    split; [lra |]. split; [lra |]. split; [lra |].
    split; (apply Forall_cons; [simpl; lra | apply Forall_nil]).
  - exists curve, w'. split; [exact Hrun | exact Hproblems].
Defined.



(** ** The categories of a computed curve *)

Lemma filter_nil_iff {A : Type} (f : A -> bool) (l : list A) :
  (forall x, In x l -> f x = false) -> filter f l = [].
Proof.
  induction l as [| x l IH]; intros H; simpl; [reflexivity |].
  rewrite (H x (or_introl eq_refl)). apply IH. intros y Hy. apply H. now right.
Qed.

Lemma probScores_nil (scores : list JSONScores.t) (pid : string) :
  (forall s p, In s scores -> In p (JSONScores.problem_scores s) ->
               ProblemScore.problem_id p <> pid) ->
  probScores scores pid = [].
Proof.
  intros H. unfold probScores.
  induction scores as [| s scores IH]; simpl; [reflexivity |].
  rewrite filter_nil_iff.
  - simpl. apply IH. intros s' p Hs'. apply H. now right.
  - intros p Hp. apply String.eqb_neq. apply (H s p); [now left | assumption].
Qed.

Lemma dimScores_nil (scores : list JSONScores.t) (did : string) :
  (forall s a, In s scores -> In a (JSONScores.ability_scores s) ->
               AbilityScore.dimension_id a <> did) ->
  dimScores scores did = [].
Proof.
  intros H. unfold dimScores.
  induction scores as [| s scores IH]; simpl; [reflexivity |].
  rewrite filter_nil_iff.
  - simpl. apply IH. intros s' a Hs'. apply H. now right.
  - intros a Ha. apply String.eqb_neq. apply (H s a); [now left | assumption].
Qed.

(** X11.  [computeCurve] gives every configured problem and dimension a
    curve, also one that no member of the pool has a score for: such a
    category gets the fixed thresholds [0.8, 0.5, 0.2], and the sample size
    of the curve is the size of the pool all the same. *)
Theorem computeCurve_unscored_category_gets_fixed_thresholds
    (pool : ScorePool.t) (w : World) :
  exists curve w',
    computeCurve pool w = (Returned curve, w') /\
    Curve.sample_size curve = List.length (ScorePool.scores pool) /\
    (forall pid,
        In pid PROBLEM_IDS ->
        (forall s p, In s (ScorePool.scores pool) ->
                     In p (JSONScores.problem_scores s) ->
                     ProblemScore.problem_id p <> pid) ->
        In (ProblemCurve.mk pid [0.8; 0.5; 0.2] ABCD) (Curve.problem_curves curve)) /\
    (forall did,
        In did DIMENSION_IDS ->
        (forall s a, In s (ScorePool.scores pool) ->
                     In a (JSONScores.ability_scores s) ->
                     AbilityScore.dimension_id a <> did) ->
        In (AbilityCurve.mk did [0.8; 0.5; 0.2] ABCD) (Curve.ability_curves curve)).
Proof.
  do 2 eexists. split; [apply computeCurve_steps |].
  cbn [curve_computed Curve.sample_size Curve.problem_curves Curve.ability_curves].
  split; [reflexivity |]. split.
  - intros pid Hpid Hnone. apply in_map_iff. exists pid. split; [| assumption].
    now rewrite probScores_nil.
  - intros did Hdid Hnone. apply in_map_iff. exists did. split; [| assumption].
    now rewrite dimScores_nil.
Qed.

Lemma computeCurve_unscored_category_gets_fixed_thresholds_witness :
  exists curve w',
    computeCurve pool_over_other_problems world0 = (Returned curve, w') /\
    In (ProblemCurve.mk "003400" [0.8; 0.5; 0.2] ABCD) (Curve.problem_curves curve) /\
    In (AbilityCurve.mk "discovery" [0.8; 0.5; 0.2] ABCD) (Curve.ability_curves curve).
Proof.
  destruct (computeCurve_unscored_category_gets_fixed_thresholds
              pool_over_other_problems world0)
    as [curve [w' [Hrun [_ [Hp Hd]]]]].
  exists curve, w'. split; [exact Hrun |]. split.
  - apply Hp; [simpl; auto |].
    simpl. intros s p [<- | []] [<- | []]. discriminate.
  - apply Hd; [simpl; auto |].
    simpl. intros s a [<- | []] [<- | []]. discriminate.
Defined.

(** ** Applying a curve *)

(** X12.  [applyCurve] mirrors the scores: its result names the scores and
    the curve it came from, lists one grade per ability score and per
    problem score, with the same ids in the same order, never gives the
    grade X, and reads nothing but the clock, once. *)
Theorem applyCurve_mirrors_the_scores
    (scores : JSONScores.t) (curve : Curve.t) (w : World) :
  exists grades,
    applyCurve scores curve w =
    (Returned grades,
     mkWorld (random_tape w) (random_reads w) (uuid_tape w) (uuid_reads w)
             (clock_tape w) (S (clock_reads w))) /\
    CurvedLetterGrades.source_scores_id grades = JSONScores.source_report_id scores /\
    CurvedLetterGrades.curve_id grades = Curve.curve_id curve /\
    map AbilityGrade.dimension_id (CurvedLetterGrades.ability_grades grades)
    = map AbilityScore.dimension_id (JSONScores.ability_scores scores) /\
    map ProblemGrade.problem_id (CurvedLetterGrades.problem_grades grades)
    = map ProblemScore.problem_id (JSONScores.problem_scores scores) /\
    Forall (fun g => AbilityGrade.grade g <> LetterGrade.X)
           (CurvedLetterGrades.ability_grades grades) /\
    Forall (fun g => ProblemGrade.grade g <> LetterGrade.X)
           (CurvedLetterGrades.problem_grades grades).
Proof.
  assert (HX : forall s t, getGrade s t <> LetterGrade.X).
  { intros s t. unfold getGrade.
    destruct (geq_opt s (nth_error t 0)), (geq_opt s (nth_error t 1)),
      (geq_opt s (nth_error t 2)); discriminate. }
  eexists. split; [reflexivity |].
  cbn [CurvedLetterGrades.source_scores_id CurvedLetterGrades.curve_id
       CurvedLetterGrades.ability_grades CurvedLetterGrades.problem_grades].
  split; [reflexivity |]. split; [reflexivity |].
  split; [now rewrite map_map |]. split; [now rewrite map_map |].
  split; apply Forall_map, Forall_forall; intros x _; apply HX.
Qed.

(** What [generateReportJSON] returns, and what it reads: 36 random
    numbers, one UUID and the clock. *)
Lemma generateReportJSON_steps (participantId : string) (w : World) :
  generateReportJSON participantId w
  = (Returned (report_drawn participantId w), after_reports 1 w).
Proof. rewrite generateReportJSON_run. reflexivity. Qed.

(** The grades of a generated report on a computed curve. *)
Lemma generated_grades (pool : ScorePool.t) (participantId : string)
    (w1 w2 w3 w3' : World) (grades : CurvedLetterGrades.t) :
  applyCurve (extractJSONScores (report_drawn participantId w2))
             (curve_computed pool w1) w3 = (Returned grades, w3') ->
  CurvedLetterGrades.problem_grades grades =
  map (fun p =>
         ProblemGrade.mk (ProblemInReport.problem_id p)
           (getGrade (ProblemInReport.objective_score p)
              (computeStdDevThresholds
                 (probScores (ScorePool.scores pool) (ProblemInReport.problem_id p)))))
      (problems_drawn w2) /\
  CurvedLetterGrades.ability_grades grades =
  map (fun a =>
         AbilityGrade.mk (AbilityDimensionInReport.dimension_id a)
           (getGrade (AbilityDimensionInReport.score a)
              (computeStdDevThresholds
                 (dimScores (ScorePool.scores pool)
                            (AbilityDimensionInReport.dimension_id a)))))
      (computeAbilities (problems_drawn w2)).
Proof.
  unfold applyCurve, bind, now, Date_toISOString, ret. intros H.
  injection H as <- _.
  cbn [CurvedLetterGrades.problem_grades CurvedLetterGrades.ability_grades
       extractJSONScores JSONScores.problem_scores JSONScores.ability_scores
       ReportJSON.problems ReportJSON.abilities report_drawn curve_computed
       Curve.problem_curves Curve.ability_curves].
  split; reflexivity.
Qed.

(** X13.  The scores of a generated report are graded on the thresholds the
    curve computed for their own problem or dimension, whatever pool the
    curve was computed from: the default thresholds [0.8, 0.6, 0.4] of
    [applyCurve] are never used for them. *)
Theorem generated_scores_are_graded_on_the_curve
    (pool : ScorePool.t) (participantId : string) (w1 w2 w3 : World) :
  exists curve w1' report w2' grades w3',
    computeCurve pool w1 = (Returned curve, w1') /\
    generateReportJSON participantId w2 = (Returned report, w2') /\
    applyCurve (extractJSONScores report) curve w3 = (Returned grades, w3') /\
    CurvedLetterGrades.problem_grades grades =
    map (fun p =>
           ProblemGrade.mk (ProblemInReport.problem_id p)
             (getGrade (ProblemInReport.objective_score p)
                (computeStdDevThresholds
                   (probScores (ScorePool.scores pool) (ProblemInReport.problem_id p)))))
        (ReportJSON.problems report) /\
    CurvedLetterGrades.ability_grades grades =
    map (fun a =>
           AbilityGrade.mk (AbilityDimensionInReport.dimension_id a)
             (getGrade (AbilityDimensionInReport.score a)
                (computeStdDevThresholds
                   (dimScores (ScorePool.scores pool)
                              (AbilityDimensionInReport.dimension_id a)))))
        (ReportJSON.abilities report).
Proof.
  destruct (applyCurve (extractJSONScores (report_drawn participantId w2))
                       (curve_computed pool w1) w3) as [[grades | msg] w3'] eqn:Hrun;
    [| discriminate Hrun].
  destruct (generated_grades pool participantId w1 w2 w3 w3' grades Hrun) as [Hp Ha].
  exists (curve_computed pool w1). eexists.
  exists (report_drawn participantId w2). eexists.
  exists grades, w3'.
  split; [apply computeCurve_steps |].
  split; [apply generateReportJSON_steps |].
  split; [exact Hrun |].
  cbn [ReportJSON.problems ReportJSON.abilities report_drawn].
  split; assumption.
Qed.

(** ** The geometric mean *)

Lemma fold_left_product (values : list R) :
  forall acc, fold_left (fun acc s => acc * s) values acc = acc * Spec.product values.
Proof.
  induction values as [| v values IH]; intros acc; simpl.
  - lra.
  - rewrite IH. ring.
Qed.

Lemma product_nonneg (values : list R) :
  Forall (fun s => 0 <= s) values -> 0 <= Spec.product values.
Proof.
  induction 1 as [| v values Hv _ IH]; simpl; [lra |].
  now apply Rmult_le_pos.
Qed.

(** The power [1 / n] of a number that is not negative is its [n]-th root. *)
Lemma Math_pow_root (x : R) (n : nat) :
  0 <= x -> (1 <= n)%nat ->
  0 <= Math_pow x (1 / INR n) /\ Math_pow x (1 / INR n) ^ n = x.
Proof.
  intros Hx Hn.
  destruct (Nat.eq_dec n 1) as [-> | Hn1].
  - replace (1 / INR 1) with 1 by (simpl; lra).
    unfold Math_pow. rewrite ZfloorZ.
    destruct (Req_dec_T 1 1) as [_ | H]; [| now destruct H].
    unfold powerRZ. change (Pos.to_nat 1) with 1%nat. split; simpl; lra.
  - assert (2 <= INR n) as HINR.
    { replace 2 with (INR 2) by (simpl; lra). apply le_INR. lia. }
    assert (0 < 1 / INR n <= 1 / 2) as Hy.
    { split.
      - apply Rdiv_lt_0_compat; lra.
      - apply Rmult_le_reg_r with (r := INR n); [lra |].
        replace (1 / INR n * INR n) with 1 by (field; lra). lra. }
    unfold Math_pow.
    rewrite (Zfloor_eq 0 (1 / INR n)) by lra.
    destruct (Req_dec_T (1 / INR n) 0) as [E | _]; [lra |].
    destruct (Rlt_dec 0 x) as [Hpos | Hzero].
    + split.
      * left. apply exp_pos.
      * rewrite <- Rpower_pow by apply exp_pos.
        rewrite Rpower_mult.
        replace (1 / INR n * INR n) with 1 by (field; lra).
        now apply Rpower_1.
    + assert (x = 0) as -> by lra. split; [lra |].
      apply pow_i. lia.
Qed.

Lemma geometricMean_root (scores : list R) :
  scores <> [] -> Forall (fun s => 0 <= s) scores ->
  0 <= geometricMean scores /\
  geometricMean scores ^ List.length scores = Spec.product scores.
Proof.
  intros Hne Hpos. destruct scores as [| v rest]; [congruence |].
  unfold geometricMean, reduce, length_num.
  rewrite fold_left_product, Rmult_1_l.
  apply Math_pow_root; [now apply product_nonneg | simpl; lia].
Qed.

Lemma geometricMean_square (a b : R) :
  0 <= a -> 0 <= b ->
  0 <= geometricMean [a; b] /\ geometricMean [a; b] * geometricMean [a; b] = a * b.
Proof.
  intros Ha Hb.
  destruct (geometricMean_root [a; b]) as [Hge Hpow];
    [discriminate | repeat (apply Forall_cons; [assumption |]); apply Forall_nil |].
  set (g := geometricMean [a; b]) in *.
  cbn [List.length pow Spec.product] in Hpow. rewrite !Rmult_1_r in Hpow.
  now split.
Qed.

(** X14.  [geometricMean] of no score is 0; of scores that are not negative
    it is the number that is not negative and whose power, to the number of
    scores, is their product; of two such scores it is the square root of
    their product. *)
Theorem geometricMean_is_the_root_of_the_product (scores : list R) :
  geometricMean [] = 0 /\
  (scores <> [] -> Forall (fun s => 0 <= s) scores ->
   0 <= geometricMean scores /\
   geometricMean scores ^ List.length scores = Spec.product scores) /\
  (forall a b, 0 <= a -> 0 <= b -> geometricMean [a; b] = sqrt (a * b)).
Proof.
  split; [reflexivity |]. split; [apply geometricMean_root |].
  intros a b Ha Hb.
  destruct (geometricMean_square a b Ha Hb) as [Hge Hsq].
  symmetry. apply sqrt_lem_1; [now apply Rmult_le_pos | exact Hge | exact Hsq].
Qed.

Lemma geometricMean_is_the_root_of_the_product_witness :
  0 <= geometricMean [0.25; 0.64] /\
  geometricMean [0.25; 0.64] ^ List.length [0.25; 0.64] = Spec.product [0.25; 0.64].
Proof.
  apply (proj1 (proj2 (geometricMean_is_the_root_of_the_product [0.25; 0.64]))).
  - discriminate.
  - repeat (apply Forall_cons; [lra |]). apply Forall_nil.
Defined.

(** ** The scores of a generated report *)

Lemma round2_score_value (x : R) :
  Spec.score_value x -> Spec.score_value (Math_round (x * 100) / 100).
Proof.
  intros [H0 H1]. unfold Spec.score_value.
  pose proof (Math_round_le (0 * 100) (x * 100)) as Hlo.
  pose proof (Math_round_le (x * 100) (1 * 100)) as Hhi.
  replace (0 * 100) with (IZR 0) in Hlo by lra.
  replace (1 * 100) with (IZR 100) in Hhi by lra.
  rewrite Math_round_IZR in Hlo, Hhi.
  split.
  - apply Rmult_le_reg_r with (r := 100); [lra |].
    replace (Math_round (x * 100) / 100 * 100)
      with (Math_round (x * 100)) by (field; lra).
    lra.
  - apply Rmult_le_reg_r with (r := 100); [lra |].
    replace (Math_round (x * 100) / 100 * 100)
      with (Math_round (x * 100)) by (field; lra).
    lra.
Qed.

Lemma sum_bounds (values : list R) :
  Forall Spec.score_value values ->
  0 <= Spec.sum values <= INR (List.length values).
Proof.
  induction 1 as [| v values [Hv0 Hv1] _ IH].
  - simpl. lra.
  - cbn [Spec.sum List.length]. rewrite S_INR. lra.
Qed.

Lemma mean_score_value (values : list R) :
  values <> [] -> Forall Spec.score_value values -> Spec.score_value (Spec.mean values).
Proof.
  intros Hne Hall. pose proof (sum_bounds values Hall) as [Hlo Hhi].
  assert (0 < INR (List.length values)) as Hpos.
  { apply lt_0_INR. destruct values; [congruence | simpl; lia]. }
  unfold Spec.mean, Spec.score_value. split.
  - apply Rmult_le_reg_r with (r := INR (List.length values)); [assumption |].
    replace (Spec.sum values / INR (List.length values) * INR (List.length values))
      with (Spec.sum values) by (field; lra).
    lra.
  - apply Rmult_le_reg_r with (r := INR (List.length values)); [assumption |].
    replace (Spec.sum values / INR (List.length values) * INR (List.length values))
      with (Spec.sum values) by (field; lra).
    lra.
Qed.

Lemma Object_get_number_score_value (obj : Object) (k : string) :
  Forall (fun kv => Spec.score_value (snd kv)) obj ->
  Spec.score_value (Object_get_number obj k).
Proof.
  unfold Object_get_number.
  induction 1 as [| [k' v] obj Hv _ IH]; simpl.
  - unfold Spec.score_value. lra.
  - destruct (String.eqb k' k); [exact Hv | exact IH].
Qed.

Lemma geometricMean_score_value (a b : R) :
  Spec.score_value a -> Spec.score_value b -> Spec.score_value (geometricMean [a; b]).
Proof.
  intros [Ha0 Ha1] [Hb0 Hb1].
  destruct (geometricMean_square a b Ha0 Hb0) as [Hge Hsq].
  set (g := geometricMean [a; b]) in *.
  split; [exact Hge |].
  destruct (Rle_dec g 1) as [Hle | Hgt]; [exact Hle | exfalso].
  assert (1 < g) as H1 by lra.
  assert (1 * 1 < g * g) as Hgg by (apply Rmult_le_0_lt_compat; lra).
  assert (a * b <= 1 * 1) as Hab by (apply Rmult_le_compat; lra).
  lra.
Qed.

Lemma drawn_score_value (w : World) (k : nat) :
  (forall n, Spec.score_value (random_tape w n)) -> Spec.score_value (drawn w k).
Proof. intros H. unfold drawn. apply round2_score_value, H. Qed.

Lemma problems_drawn_score_values (w : World) :
  (forall n, Spec.score_value (random_tape w n)) ->
  Forall problem_holds_score_values (problems_drawn w).
Proof.
  intros H.
  cbv [problems_drawn problem_drawn map combine seq fst snd PROBLEM_IDS DIMENSION_IDS].
  repeat (apply Forall_cons;
          [split; cbn [ProblemInReport.objective_score ProblemInReport.dimension_scores snd];
           [now apply drawn_score_value
           | repeat (apply Forall_cons; [now apply drawn_score_value |]);
             apply Forall_nil] |]).
  apply Forall_nil.
Qed.

Lemma computeAbilities_score_values (problems : list ProblemInReport.t) :
  problems <> [] -> Forall problem_holds_score_values problems ->
  Forall (fun a => Spec.score_value (AbilityDimensionInReport.score a))
         (computeAbilities problems).
Proof.
  intros Hne Hall. unfold computeAbilities.
  apply Forall_map, Forall_forall. intros did _.
  cbn [AbilityDimensionInReport.score]. rewrite reduce_sum.
  apply round2_score_value.
  change (Spec.score_value
            (Spec.mean (map (fun p => Object_get_number
                                        (ProblemInReport.dimension_scores p) did)
                            problems))).
  apply mean_score_value.
  - destruct problems; [congruence | discriminate].
  - apply Forall_map. eapply Forall_impl; [| exact Hall].
    intros p [_ Hd]. now apply Object_get_number_score_value.
Qed.

Lemma computeTotals_score_values (problems : list ProblemInReport.t)
    (abilities : list AbilityDimensionInReport.t) :
  problems <> [] -> abilities <> [] ->
  Forall problem_holds_score_values problems ->
  Forall (fun a => Spec.score_value (AbilityDimensionInReport.score a)) abilities ->
  Spec.score_value (TotalScores.total_problem_score (computeTotals problems abilities)) /\
  Spec.score_value (TotalScores.total_ability_score (computeTotals problems abilities)) /\
  Spec.score_value (TotalScores.final_total_score (computeTotals problems abilities)).
Proof.
  intros Hp Ha Hps Has.
  assert (Spec.score_value
            (Math_round
               (reduce (fun sum p => sum + ProblemInReport.objective_score p) 0 problems
                / length_num problems * 100) / 100)) as H1.
  { rewrite reduce_sum_map. apply round2_score_value.
    unfold length_num. rewrite <- (length_map ProblemInReport.objective_score).
    apply mean_score_value.
    - destruct problems; [congruence | discriminate].
    - apply Forall_map. eapply Forall_impl; [| exact Hps]. now intros p [Ho _]. }
  assert (Spec.score_value
            (Math_round
               (reduce (fun sum a => sum + AbilityDimensionInReport.score a) 0 abilities
                / length_num abilities * 100) / 100)) as H2.
  { rewrite reduce_sum_map. apply round2_score_value.
    unfold length_num. rewrite <- (length_map AbilityDimensionInReport.score).
    apply mean_score_value.
    - destruct abilities; [congruence | discriminate].
    - now apply Forall_map. }
  unfold computeTotals.
  cbn [TotalScores.total_problem_score TotalScores.total_ability_score
       TotalScores.final_total_score].
  split; [exact H1 |]. split; [exact H2 |].
  apply round2_score_value. now apply geometricMean_score_value.
Qed.

(** X15.  When [Math.random()] returns numbers between 0 and 1, every score
    of a generated report lies between 0 and 1: the objective score and the
    dimension scores of every problem, every ability score and the three
    totals, the geometric mean included. *)
Theorem generated_report_holds_score_values (participantId : string) (w : World) :
  (forall n, Spec.score_value (random_tape w n)) ->
  exists report w',
    generateReportJSON participantId w = (Returned report, w') /\
    Forall (fun p =>
              Spec.score_value (ProblemInReport.objective_score p) /\
              Forall (fun kv => Spec.score_value (snd kv))
                     (ProblemInReport.dimension_scores p))
           (ReportJSON.problems report) /\
    Forall (fun a => Spec.score_value (AbilityDimensionInReport.score a))
           (ReportJSON.abilities report) /\
    Spec.score_value (TotalScores.total_problem_score (ReportJSON.totals report)) /\
    Spec.score_value (TotalScores.total_ability_score (ReportJSON.totals report)) /\
    Spec.score_value (TotalScores.final_total_score (ReportJSON.totals report)).
Proof.
  intros Htape.
  pose proof (problems_drawn_score_values w Htape) as Hps.
  assert (problems_drawn w <> []) as Hne by discriminate.
  pose proof (computeAbilities_score_values _ Hne Hps) as Has.
  do 2 eexists. split; [apply generateReportJSON_run |].
  cbn [ReportJSON.problems ReportJSON.abilities ReportJSON.totals].
  split; [exact Hps |]. split; [exact Has |].
  apply computeTotals_score_values; try assumption.
  discriminate.
Qed.

Lemma generated_report_holds_score_values_witness :
  exists report w',
    generateReportJSON "participant_001" skewed_world = (Returned report, w') /\
    Forall (fun a => Spec.score_value (AbilityDimensionInReport.score a))
           (ReportJSON.abilities report).
Proof.
  destruct (generated_report_holds_score_values "participant_001" skewed_world)
    as [report [w' [Hrun [_ [Ha _]]]]].
  - intros n. cbn [random_tape skewed_world]. unfold skewed_random, Spec.score_value.
    destruct ((n =? 24) || (n =? 30))%nat; lra.
  - exists report, w'. split; [exact Hrun | exact Ha].
Defined.

(** ** A batch of reports *)

Lemma after_reports_add (a b : nat) (w : World) :
  after_reports a (after_reports b w) = after_reports (a + b) w.
Proof.
  unfold after_reports.
  cbn [random_tape random_reads uuid_tape uuid_reads clock_tape clock_reads].
  f_equal; lia.
Qed.

Lemma after_reports_0 (w : World) : after_reports 0 w = w.
Proof. now destruct w. Qed.

Lemma batch_run (count : nat) :
  forall start w,
    mapM (fun i => generateReportJSON (participant_of_index i)) (seq start count) w
    = (Returned
         (map (fun j => report_drawn (participant_of_index (start + j))
                                     (after_reports j w))
              (seq 0 count)),
       after_reports count w).
Proof.
  induction count as [| count IH]; intros start w.
  - simpl. now rewrite after_reports_0.
  - cbn [seq mapM]. unfold bind at 1. rewrite generateReportJSON_steps.
    unfold bind at 1. rewrite IH. unfold ret.
    rewrite after_reports_add, Nat.add_1_r.
    rewrite <- seq_shift. cbn [map]. rewrite map_map.
    rewrite Nat.add_0_r, after_reports_0.
    do 3 f_equal.
    apply map_ext. intros j.
    now rewrite after_reports_add, Nat.add_1_r, Nat.add_succ_r.
Qed.

Lemma generateMultipleReports_run (count : nat) (w : World) :
  generateMultipleReports count w
  = (Returned
       (map (fun j => report_drawn (participant_of_index j) (after_reports j w))
            (seq 0 count)),
     after_reports count w).
Proof.
  unfold generateMultipleReports, Array_from.
  exact (batch_run count 0 w).
Qed.

Lemma nth_error_map_seq {B : Type} (f : nat -> B) (count i : nat) (b : B) :
  nth_error (map f (seq 0 count)) i = Some b -> b = f i.
Proof.
  intros Hnth. rewrite nth_error_map in Hnth.
  destruct (nth_error (seq 0 count) i) as [j |] eqn:Hj; [| discriminate].
  assert (i < count)%nat as Hi.
  { rewrite <- (length_seq count 0). apply nth_error_Some. congruence. }
  rewrite nth_error_seq in Hj.
  assert (j = i) as ->.
  { destruct (Nat.ltb_spec i count); [| lia]. injection Hj as <-. lia. }
  now injection Hnth as <-.
Qed.

(** X16.  [generateMultipleReports(count)] returns [count] reports, and the
    report of index [i] is what one call of [generateReportJSON] returns
    when [i] reports were generated before it: the calls run one after
    another, each reading 36 random numbers, one UUID and the clock. *)
Theorem generateMultipleReports_runs_one_report_after_another
    (count : nat) (w : World) :
  exists reports,
    generateMultipleReports count w = (Returned reports, after_reports count w) /\
    List.length reports = count /\
    forall i report,
      nth_error reports i = Some report ->
      generateReportJSON (participant_of_index i) (after_reports i w)
      = (Returned report, after_reports (S i) w).
Proof.
  eexists. split; [apply generateMultipleReports_run |].
  split; [now rewrite length_map, length_seq |].
  intros i report Hnth. apply nth_error_map_seq in Hnth. subst report.
  rewrite generateReportJSON_steps, after_reports_add. reflexivity.
Qed.

Lemma generateMultipleReports_runs_one_report_after_another_witness :
  exists reports report,
    generateMultipleReports 2 world0 = (Returned reports, after_reports 2 world0) /\
    nth_error reports 1 = Some report /\
    generateReportJSON (participant_of_index 1) (after_reports 1 world0)
    = (Returned report, after_reports 2 world0).
Proof.
  destruct (generateMultipleReports_runs_one_report_after_another 2 world0)
    as [reports [Hrun [Hlen Hnth]]].
  destruct reports as [| r0 [| r1 rest]]; try discriminate Hlen.
  exists (r0 :: r1 :: rest), r1.
  split; [exact Hrun |]. split; [reflexivity |].
  apply (Hnth 1%nat r1). reflexivity.
Defined.

(** ** Participant ids *)

Lemma padStart_3_zero (s : string) :
  padStart s 3 "0" = s \/ padStart s 3 "0" = "0" ++ s \/
  padStart s 3 "0" = "00" ++ s \/ padStart s 3 "0" = "000" ++ s.
Proof.
  destruct s as [| a [| b [| c s']]].
  - right. right. right. reflexivity.
  - right. right. left. reflexivity.
  - right. left. reflexivity.
  - left. reflexivity.
Qed.

Lemma padStart_3_length (s : string) : (3 <= String.length (padStart s 3 "0"))%nat.
Proof.
  destruct s as [| a [| b [| c s']]]; cbn; lia.
Qed.

Lemma decode_number_leading_zero (s : string) :
  decode_number (String "0" s) = decode_number s.
Proof.
  unfold decode_number. cbn [DecimalString.NilEmpty.uint_of_string].
  destruct (DecimalString.NilEmpty.uint_of_string s) as [d |]; reflexivity.
Qed.

Lemma decode_number_toString (n : nat) : decode_number (Number_toString n) = Some n.
Proof.
  unfold decode_number, Number_toString.
  rewrite DecimalString.NilEmpty.usu. cbn [option_map].
  now rewrite DecimalNat.Unsigned.of_to.
Qed.

(** The number of a participant id can be read back. *)
Lemma decode_number_padStart (n : nat) :
  decode_number (padStart (Number_toString n) 3 "0") = Some n.
Proof.
  destruct (padStart_3_zero (Number_toString n)) as [E | [E | [E | E]]];
    rewrite E; cbn [append]; rewrite ?decode_number_leading_zero;
    apply decode_number_toString.
Qed.

Lemma participant_of_index_inj (i j : nat) :
  participant_of_index i = participant_of_index j -> i = j.
Proof.
  unfold participant_of_index. intros H.
  apply string_append_cancel_l in H.
  apply (f_equal decode_number) in H.
  rewrite !decode_number_padStart in H. injection H. lia.
Qed.

Lemma NoDup_map_injective {A B : Type} (f : A -> B) (l : list A) :
  (forall x y, f x = f y -> x = y) -> NoDup l -> NoDup (map f l).
Proof.
  intros Hinj. induction 1 as [| x l Hx _ IH]; simpl; constructor.
  - rewrite in_map_iff. intros [y [E Hy]]. apply Hinj in E. now subst.
  - exact IH.
Qed.

(** X17.  The participant ids of a batch are pairwise distinct, for every
    count, also beyond 999 where the number outgrows the padding: the id of
    the report of index [i] is "participant_" followed by at least 3 digits
    that read [i + 1]. *)
Theorem generateMultipleReports_names_participants_apart (count : nat) (w : World) :
  exists reports w',
    generateMultipleReports count w = (Returned reports, w') /\
    NoDup (map ReportJSON.participant_id reports) /\
    forall i report,
      nth_error reports i = Some report ->
      exists digits,
        ReportJSON.participant_id report = "participant_" ++ digits /\
        (3 <= String.length digits)%nat /\
        decode_number digits = Some (i + 1)%nat.
Proof.
  do 2 eexists. split; [apply generateMultipleReports_run |].
  split.
  - rewrite map_map. cbn [ReportJSON.participant_id report_drawn].
    apply NoDup_map_injective; [apply participant_of_index_inj | apply seq_NoDup].
  - intros i report Hnth. apply nth_error_map_seq in Hnth. subst report.
    exists (padStart (Number_toString (i + 1)) 3 "0").
    split; [reflexivity |]. split; [| apply decode_number_padStart].
    apply padStart_3_length.
Qed.

Lemma generateMultipleReports_names_participants_apart_witness :
  exists reports w' report digits,
    generateMultipleReports 2 world0 = (Returned reports, w') /\
    nth_error reports 1 = Some report /\
    ReportJSON.participant_id report = "participant_" ++ digits /\
    decode_number digits = Some 2%nat.
Proof.
  destruct (generateMultipleReports_names_participants_apart 2 world0)
    as [reports [w' [Hrun [_ Hnth]]]].
  pose proof Hrun as Hshape. rewrite generateMultipleReports_run in Hshape.
  injection Hshape as Hreports _.
  cbn [seq map] in Hreports.
  destruct (Hnth 1%nat
              (report_drawn (participant_of_index 1) (after_reports 1 world0)))
    as [digits [Hid [_ Hdec]]]; [now rewrite <- Hreports |].
  exists reports, w', (report_drawn (participant_of_index 1) (after_reports 1 world0)),
    digits.
  split; [exact Hrun |]. split; [now rewrite <- Hreports |].
  split; [exact Hid | exact Hdec].
Defined.

(** X18.  Making a score pool from the extracted scores of a batch throws
    exactly for a batch of no report; for every other count the pool holds
    one scores object per report, and every member lists the problems and
    dimensions of the pool, in the pool's order. *)
Theorem pool_of_a_batch_needs_one_report (count : nat) (w : World) :
  (count = 0%nat ->
   bind (generateMultipleReports count)
        (fun reports => createScorePool (map extractJSONScores reports)) w
   = (Thrown "Cannot create score pool from empty scores array", w)) /\
  ((0 < count)%nat ->
   exists pool,
     bind (generateMultipleReports count)
          (fun reports => createScorePool (map extractJSONScores reports)) w
     = (Returned pool, after_reports count w) /\
     List.length (ScorePool.scores pool) = count /\
     ScorePool.event_id pool = EVENT_ID /\
     Forall (fun s =>
               map ProblemScore.problem_id (JSONScores.problem_scores s)
               = ScorePool.problem_ids pool /\
               map AbilityScore.dimension_id (JSONScores.ability_scores s)
               = ScorePool.dimension_ids pool)
            (ScorePool.scores pool)).
Proof.
  split.
  - intros ->. unfold bind. rewrite generateMultipleReports_run.
    cbn [seq map createScorePool]. unfold throw. now rewrite after_reports_0.
  - intros Hpos. unfold bind. rewrite generateMultipleReports_run.
    destruct count as [| count]; [lia |].
    cbn [seq map createScorePool]. unfold ret.
    eexists. split; [reflexivity |].
    cbn [ScorePool.scores ScorePool.event_id ScorePool.problem_ids
         ScorePool.dimension_ids].
    split; [cbn [List.length]; now rewrite !length_map, length_seq |].
    split; [reflexivity |].
    assert (Hok : forall pid w0,
              map ProblemScore.problem_id
                (JSONScores.problem_scores (extractJSONScores (report_drawn pid w0)))
              = PROBLEM_IDS /\
              map AbilityScore.dimension_id
                (JSONScores.ability_scores (extractJSONScores (report_drawn pid w0)))
              = DIMENSION_IDS).
    { intros pid w0. split; reflexivity. }
    apply Forall_cons; [apply Hok |].
    apply Forall_map, Forall_map, Forall_forall. intros j _. apply Hok.
Qed.

Lemma pool_of_a_batch_needs_one_report_witness :
  exists pool,
    bind (generateMultipleReports 3)
         (fun reports => createScorePool (map extractJSONScores reports)) world0
    = (Returned pool, after_reports 3 world0) /\
    List.length (ScorePool.scores pool) = 3%nat.
Proof.
  destruct (proj2 (pool_of_a_batch_needs_one_report 3 world0))
    as [pool [Hrun [Hlen _]]]; [lia |].
  exists pool. split; [exact Hrun | exact Hlen].
Defined.

(** ** Extraction *)

Lemma map_injective {A B : Type} (f : A -> B) :
  (forall x y, f x = f y -> x = y) ->
  forall l1 l2, map f l1 = map f l2 -> l1 = l2.
Proof.
  intros Hinj. induction l1 as [| x l1 IH]; intros [| y l2] H; simpl in H;
    try discriminate; [reflexivity |].
  injection H as Hxy H. f_equal; [now apply Hinj | now apply IH].
Qed.

(** X19.  [extractJSONScores] loses nothing but the prompt version hash and
    the generation time: two reports have the same extracted scores exactly
    when they agree on the report id, the event, the participant, the
    totals, the abilities and the problems with all their dimension
    scores. *)
Theorem extractJSONScores_keeps_every_score (report1 report2 : ReportJSON.t) :
  extractJSONScores report1 = extractJSONScores report2 <->
  ReportJSON.report_id report1 = ReportJSON.report_id report2 /\
  ReportJSON.event_id report1 = ReportJSON.event_id report2 /\
  ReportJSON.participant_id report1 = ReportJSON.participant_id report2 /\
  ReportJSON.totals report1 = ReportJSON.totals report2 /\
  ReportJSON.abilities report1 = ReportJSON.abilities report2 /\
  ReportJSON.problems report1 = ReportJSON.problems report2.
Proof.
  unfold extractJSONScores, Object_entries. split.
  - intros H. injection H as Hid Hev Hpa Hto Hab Hpr.
    repeat (split; [assumption |]). split.
    + revert Hab. apply map_injective.
      intros [d1 s1] [d2 s2] E. simpl in E. now injection E as -> ->.
    + revert Hpr. apply map_injective.
      intros [i1 ds1 o1] [i2 ds2 o2] E. simpl in E. injection E as -> -> E.
      f_equal. revert E. apply map_injective.
      intros [k1 v1] [k2 v2] E. simpl in E. now injection E as -> ->.
  - intros [-> [-> [-> [-> [-> ->]]]]]. reflexivity.
Qed.

(** ** Objects *)

Lemma JsObject_has_get {V : Type} (obj : JsObject V) (k : string) :
  JsObject_has obj k = false -> JsObject_get obj k = None.
Proof.
  unfold JsObject_has. induction obj as [| [k' v'] obj IH]; simpl; [reflexivity |].
  destruct (String.eqb k' k); [discriminate | exact IH].
Qed.

Lemma JsObject_get_replace {V : Type} (obj : JsObject V) (k k2 : string) (v : V) :
  JsObject_has obj k = true ->
  JsObject_get (JsObject_replace obj k v) k2
  = if String.eqb k k2 then Some v else JsObject_get obj k2.
Proof.
  unfold JsObject_has. induction obj as [| [k' v'] obj IH]; simpl; [discriminate |].
  destruct (String.eqb_spec k' k) as [-> | Hne]; simpl.
  - intros _. now destruct (String.eqb k k2).
  - intros H. rewrite (IH H).
    destruct (String.eqb_spec k' k2) as [-> | Hne2]; [| reflexivity].
    destruct (String.eqb_spec k k2) as [E | _]; [congruence | reflexivity].
Qed.

Lemma JsObject_get_create {V : Type} (obj : JsObject V) (k k2 : string) (v : V) :
  JsObject_has obj k = false ->
  JsObject_get (JsObject_create obj k v) k2
  = if String.eqb k k2 then Some v else JsObject_get obj k2.
Proof.
  unfold JsObject_has. induction obj as [| [k' v'] obj IH]; simpl; [reflexivity |].
  destruct (String.eqb_spec k' k) as [-> | Hne]; simpl; [discriminate |].
  intros H. destruct (key_before k k'); simpl; [reflexivity |].
  rewrite (IH H).
  destruct (String.eqb_spec k' k2) as [-> | Hne2]; [| reflexivity].
  destruct (String.eqb_spec k k2) as [E | _]; [congruence | reflexivity].
Qed.

(** Reading after writing. *)
Lemma JsObject_get_set {V : Type} (obj : JsObject V) (k k2 : string) (v : V) :
  JsObject_get (JsObject_set obj k v) k2
  = if String.eqb k k2 then Some v else JsObject_get obj k2.
Proof.
  unfold JsObject_set. destruct (JsObject_has obj k) eqn:E.
  - now apply JsObject_get_replace.
  - now apply JsObject_get_create.
Qed.

Lemma JsObject_get_fold_set {V : Type} (entries : list (string * V)) (k : string) :
  forall obj,
    JsObject_get
      (fold_left (fun o kv => JsObject_set o (fst kv) (snd kv)) entries obj) k
    = match Spec.last_value entries k with
      | Some v => Some v
      | None => JsObject_get obj k
      end.
Proof.
  induction entries as [| [k0 v0] entries IH]; intros obj; simpl; [reflexivity |].
  rewrite IH, JsObject_get_set. cbn [fst snd].
  destruct (Spec.last_value entries k); [reflexivity |].
  now destruct (String.eqb k0 k).
Qed.

(** A key of [Object.fromEntries] holds the value of its last entry. *)
Lemma JsObject_get_fromEntries {V : Type} (entries : list (string * V)) (k : string) :
  JsObject_get (JsObject_fromEntries entries) k = Spec.last_value entries k.
Proof.
  unfold JsObject_fromEntries. rewrite JsObject_get_fold_set.
  now destruct (Spec.last_value entries k).
Qed.

Lemma last_value_NoDup {V : Type} (entries : list (string * V)) (k : string) (v : V) :
  NoDup (map fst entries) -> In (k, v) entries -> Spec.last_value entries k = Some v.
Proof.
  induction entries as [| [k0 v0] entries IH]; intros Hnd Hin; [destruct Hin |].
  cbn [map fst] in Hnd. apply NoDup_cons_iff in Hnd. destruct Hnd as [Hnot Hnd].
  cbn [Spec.last_value]. destruct Hin as [E | Hin].
  - injection E as -> ->.
    destruct (Spec.last_value entries k) as [v' |] eqn:El.
    + exfalso. apply Hnot. clear - El.
      induction entries as [| [k1 v1] entries IH]; simpl in El; [discriminate |].
      destruct (Spec.last_value entries k) eqn:E2.
      * right. now apply IH.
      * destruct (String.eqb_spec k1 k) as [-> | _]; [now left | discriminate].
    + now rewrite String.eqb_refl.
  - now rewrite (IH Hnd Hin).
Qed.

Lemma last_value_None {V : Type} (entries : list (string * V)) (k : string) :
  Spec.last_value entries k = None <-> ~ In k (map fst entries).
Proof.
  induction entries as [| [k0 v0] entries IH]; simpl; [tauto |].
  destruct (Spec.last_value entries k) as [v |].
  - split; [discriminate |]. intros H. exfalso.
    assert (In k (map fst entries)) as Hin.
    { destruct (in_dec string_dec k (map fst entries)) as [Hin | Hno];
        [assumption |]. now apply IH in Hno. }
    apply H. now right.
  - destruct (String.eqb_spec k0 k) as [-> | Hne].
    + split; [discriminate |]. intros H. exfalso. apply H. now left.
    + split; [| reflexivity]. intros _ [E | Hin]; [congruence |].
      now apply (proj1 IH).
Qed.

Lemma JsObject_has_get_some {V : Type} (obj : JsObject V) (k : string) :
  JsObject_has obj k = true <-> JsObject_get obj k <> None.
Proof.
  unfold JsObject_has. induction obj as [| [k' v'] obj IH]; simpl.
  - split; [discriminate | congruence].
  - destruct (String.eqb k' k); simpl; [split; [discriminate | reflexivity] |].
    exact IH.
Qed.

(** The own properties of [Object.fromEntries] are the keys of the
    entries. *)
Lemma JsObject_has_fromEntries {V : Type} (entries : list (string * V)) (k : string) :
  JsObject_has (JsObject_fromEntries entries) k = true <-> In k (map fst entries).
Proof.
  rewrite JsObject_has_get_some, JsObject_get_fromEntries.
  pose proof (last_value_None entries k) as H.
  destruct (in_dec string_dec k (map fst entries)) as [Hin | Hno]; tauto.
Qed.

(** X20.  [mergeIntoCurvedReport] copies the problems, abilities and totals
    of the report, names the report and the curve it came from, reads one
    UUID and the clock, and files each grade under its id.  The own
    properties of [letter_grades.abilities] and of [letter_grades.problems]
    are the dimension ids and the problem ids that have a grade entry, and
    the own property of an id holds the grade of the last entry with that
    id.  What a read finds on [Object.prototype] for a key that is no own
    property is not said. *)
Theorem mergeIntoCurvedReport_files_each_grade_under_its_id
    (report : ReportJSON.t) (grades : CurvedLetterGrades.t) (w : World) :
  exists curved,
    mergeIntoCurvedReport report grades w =
    (Returned curved,
     mkWorld (random_tape w) (random_reads w) (uuid_tape w) (S (uuid_reads w))
             (clock_tape w) (S (clock_reads w))) /\
    CurvedReport.source_report_id curved = ReportJSON.report_id report /\
    CurvedReport.applied_curve_id curved = CurvedLetterGrades.curve_id grades /\
    CurvedReport.problems curved = ReportJSON.problems report /\
    CurvedReport.abilities curved = ReportJSON.abilities report /\
    CurvedReport.totals curved = ReportJSON.totals report /\
    (forall did,
        JsObject_has (LetterGradesInReport.abilities (CurvedReport.letter_grades curved))
                     did = true <->
        In did (map AbilityGrade.dimension_id
                    (CurvedLetterGrades.ability_grades grades))) /\
    (forall pid,
        JsObject_has (LetterGradesInReport.problems (CurvedReport.letter_grades curved))
                     pid = true <->
        In pid (map ProblemGrade.problem_id
                    (CurvedLetterGrades.problem_grades grades))) /\
    (forall did,
        JsObject_has (LetterGradesInReport.abilities (CurvedReport.letter_grades curved))
                     did = true ->
        JsObject_get (LetterGradesInReport.abilities (CurvedReport.letter_grades curved)) did
        = Spec.last_value
            (map (fun a => (AbilityGrade.dimension_id a, AbilityGrade.grade a))
                 (CurvedLetterGrades.ability_grades grades)) did) /\
    (forall pid,
        JsObject_has (LetterGradesInReport.problems (CurvedReport.letter_grades curved))
                     pid = true ->
        JsObject_get (LetterGradesInReport.problems (CurvedReport.letter_grades curved)) pid
        = Spec.last_value
            (map (fun p => (ProblemGrade.problem_id p, ProblemGrade.grade p))
                 (CurvedLetterGrades.problem_grades grades)) pid).
Proof.
  eexists. split; [reflexivity |].
  cbn [CurvedReport.source_report_id CurvedReport.applied_curve_id
       CurvedReport.problems CurvedReport.abilities CurvedReport.totals
       CurvedReport.letter_grades LetterGradesInReport.abilities
       LetterGradesInReport.problems].
  repeat (split; [reflexivity |]).
  split; [| split; [| split]].
  - intros k. rewrite JsObject_has_fromEntries, map_map. reflexivity.
  - intros k. rewrite JsObject_has_fromEntries, map_map. reflexivity.
  - intros k _. apply JsObject_get_fromEntries.
  - intros k _. apply JsObject_get_fromEntries.
Qed.

Lemma mergeIntoCurvedReport_files_each_grade_under_its_id_witness :
  exists curved w',
    mergeIntoCurvedReport (report_drawn "participant_001" world0)
      (CurvedLetterGrades.mk "1b4e28ba-2fa1-41d2-883f-0016d3cca427"
         "7d9f3c1e-58a4-4f0b-9a63-0c2b1e4d5f60" "2024-01-15T10:30:00.000Z"
         (TotalGrades.mk LetterGrade.B LetterGrade.B LetterGrade.B)
         [AbilityGrade.mk "discovery" LetterGrade.B]
         [ProblemGrade.mk "003400" LetterGrade.A;
          ProblemGrade.mk "003400" LetterGrade.C]) world0
    = (Returned curved, w') /\
    JsObject_get (LetterGradesInReport.problems (CurvedReport.letter_grades curved))
                 "003400" = Some LetterGrade.C.
Proof.
  destruct (mergeIntoCurvedReport_files_each_grade_under_its_id
              (report_drawn "participant_001" world0)
              (CurvedLetterGrades.mk "1b4e28ba-2fa1-41d2-883f-0016d3cca427"
                 "7d9f3c1e-58a4-4f0b-9a63-0c2b1e4d5f60" "2024-01-15T10:30:00.000Z"
                 (TotalGrades.mk LetterGrade.B LetterGrade.B LetterGrade.B)
                 [AbilityGrade.mk "discovery" LetterGrade.B]
                 [ProblemGrade.mk "003400" LetterGrade.A;
                  ProblemGrade.mk "003400" LetterGrade.C]) world0)
    as [curved [Hrun [_ [_ [_ [_ [_ [_ [Hown [_ Hget]]]]]]]]]].
  exists curved. eexists. split; [exact Hrun |].
  rewrite (Hget "003400"); [reflexivity |].
  apply Hown. simpl. auto.
Defined.

Lemma key_before_not_index (k k' : string) :
  array_index k = None -> key_before k k' = false.
Proof. unfold key_before. now intros ->. Qed.

Lemma JsObject_create_not_index {V : Type} (obj : JsObject V) (k : string) (v : V) :
  array_index k = None -> JsObject_create obj k v = (obj ++ [(k, v)])%list.
Proof.
  intros H. induction obj as [| [k' v'] obj IH]; simpl; [reflexivity |].
  now rewrite key_before_not_index, IH.
Qed.

Lemma JsObject_has_keys {V : Type} (obj : JsObject V) (k : string) :
  JsObject_has obj k = true <-> In k (map fst obj).
Proof.
  unfold JsObject_has. rewrite existsb_exists, in_map_iff. split.
  - intros [kv [Hin E]]. apply String.eqb_eq in E. now exists kv.
  - intros [kv [E Hin]]. exists kv. split; [assumption |]. now apply String.eqb_eq.
Qed.

(** Keys that are not array indices stay in the order they were written. *)
Lemma JsObject_fold_set_not_index {V : Type} (entries : list (string * V)) :
  forall obj,
    Forall (fun k => array_index k = None) (map fst entries) ->
    NoDup (map fst (obj ++ entries)) ->
    fold_left (fun o kv => JsObject_set o (fst kv) (snd kv)) entries obj
    = (obj ++ entries)%list.
Proof.
  induction entries as [| [k v] entries IH]; intros obj Hidx Hnd; simpl.
  - now rewrite app_nil_r.
  - cbn [map fst] in Hidx. apply Forall_cons_iff in Hidx. destruct Hidx as [Hk Hidx].
    assert (JsObject_has obj k = false) as Hno.
    { destruct (JsObject_has obj k) eqn:E; [| reflexivity].
      apply JsObject_has_keys in E. rewrite map_app in Hnd. cbn [map fst] in Hnd.
      apply NoDup_remove_2 in Hnd. exfalso. apply Hnd, in_or_app. now left. }
    unfold JsObject_set at 2. rewrite Hno, JsObject_create_not_index by assumption.
    rewrite IH; [now rewrite <- app_assoc | assumption |].
    now rewrite <- app_assoc.
Qed.

Lemma JsObject_fromEntries_not_index {V : Type} (entries : list (string * V)) :
  Forall (fun k => array_index k = None) (map fst entries) ->
  NoDup (map fst entries) ->
  JsObject_fromEntries entries = entries.
Proof.
  intros Hidx Hnd. unfold JsObject_fromEntries.
  now rewrite JsObject_fold_set_not_index.
Qed.

Lemma PROBLEM_IDS_NoDup : NoDup PROBLEM_IDS.
Proof.
  unfold PROBLEM_IDS.
  repeat (apply NoDup_cons; [simpl; intuition discriminate |]). apply NoDup_nil.
Qed.

Lemma DIMENSION_IDS_NoDup : NoDup DIMENSION_IDS.
Proof.
  unfold DIMENSION_IDS.
  repeat (apply NoDup_cons; [simpl; intuition discriminate |]). apply NoDup_nil.
Qed.

(** The configured ids are no array indices: the problem ids start with a
    0, the dimension ids are words. *)
Lemma PROBLEM_IDS_not_indices : Forall (fun k => array_index k = None) PROBLEM_IDS.
Proof.
  unfold PROBLEM_IDS. repeat (apply Forall_cons; [reflexivity |]). apply Forall_nil.
Qed.

Lemma DIMENSION_IDS_not_indices : Forall (fun k => array_index k = None) DIMENSION_IDS.
Proof.
  unfold DIMENSION_IDS. repeat (apply Forall_cons; [reflexivity |]). apply Forall_nil.
Qed.

(** X21.  From the generator to the curved report: the letter grades of the
    curved report of a generated report have the configured problem ids and
    dimension ids as their keys, in the configured order, and hold for each
    problem and each ability of the report the grade of its score on the
    thresholds the curve computed for it. *)
Theorem curved_report_grades_every_problem_and_dimension
    (pool : ScorePool.t) (participantId : string) (w1 w2 w3 w4 : World) :
  exists curve w1' report w2' grades w3' curved w4',
    computeCurve pool w1 = (Returned curve, w1') /\
    generateReportJSON participantId w2 = (Returned report, w2') /\
    applyCurve (extractJSONScores report) curve w3 = (Returned grades, w3') /\
    mergeIntoCurvedReport report grades w4 = (Returned curved, w4') /\
    JsObject_keys (LetterGradesInReport.problems (CurvedReport.letter_grades curved))
    = PROBLEM_IDS /\
    JsObject_keys (LetterGradesInReport.abilities (CurvedReport.letter_grades curved))
    = DIMENSION_IDS /\
    (forall p,
        In p (ReportJSON.problems report) ->
        JsObject_get (LetterGradesInReport.problems (CurvedReport.letter_grades curved))
                     (ProblemInReport.problem_id p)
        = Some (getGrade (ProblemInReport.objective_score p)
                  (computeStdDevThresholds
                     (probScores (ScorePool.scores pool)
                                 (ProblemInReport.problem_id p))))) /\
    (forall a,
        In a (ReportJSON.abilities report) ->
        JsObject_get (LetterGradesInReport.abilities (CurvedReport.letter_grades curved))
                     (AbilityDimensionInReport.dimension_id a)
        = Some (getGrade (AbilityDimensionInReport.score a)
                  (computeStdDevThresholds
                     (dimScores (ScorePool.scores pool)
                                (AbilityDimensionInReport.dimension_id a))))).
Proof.
  destruct (applyCurve (extractJSONScores (report_drawn participantId w2))
                       (curve_computed pool w1) w3) as [[grades | msg] w3'] eqn:Hrun;
    [| discriminate Hrun].
  destruct (generated_grades pool participantId w1 w2 w3 w3' grades Hrun) as [Hp Ha].
  exists (curve_computed pool w1). eexists.
  exists (report_drawn participantId w2). eexists.
  exists grades, w3'. do 2 eexists.
  split; [apply computeCurve_steps |].
  split; [apply generateReportJSON_steps |].
  split; [exact Hrun |].
  split; [reflexivity |].
  cbn [CurvedReport.letter_grades LetterGradesInReport.problems
       LetterGradesInReport.abilities ReportJSON.problems ReportJSON.abilities
       report_drawn].
  rewrite Hp, Ha, !map_map.
  cbn [ProblemGrade.problem_id ProblemGrade.grade
       AbilityGrade.dimension_id AbilityGrade.grade].
  assert (Hkp : forall g : ProblemInReport.t -> LetterGrade.t,
             map fst (map (fun p => (ProblemInReport.problem_id p, g p))
                          (problems_drawn w2)) = PROBLEM_IDS).
  { intros g. rewrite map_map. apply problems_drawn_ids. }
  assert (Hka : forall g : AbilityDimensionInReport.t -> LetterGrade.t,
             map fst (map (fun a => (AbilityDimensionInReport.dimension_id a, g a))
                          (computeAbilities (problems_drawn w2))) = DIMENSION_IDS).
  { intros g. rewrite map_map. apply computeAbilities_ids. }
  split; [| split; [| split]].
  - unfold JsObject_keys. rewrite JsObject_fromEntries_not_index; rewrite Hkp;
      [reflexivity | apply PROBLEM_IDS_not_indices | apply PROBLEM_IDS_NoDup].
  - unfold JsObject_keys. rewrite JsObject_fromEntries_not_index; rewrite Hka;
      [reflexivity | apply DIMENSION_IDS_not_indices | apply DIMENSION_IDS_NoDup].
  - intros p Hin. rewrite JsObject_get_fromEntries.
    apply last_value_NoDup; [rewrite Hkp; apply PROBLEM_IDS_NoDup |].
    apply in_map_iff. now exists p.
  - intros a Hin. rewrite JsObject_get_fromEntries.
    apply last_value_NoDup; [rewrite Hka; apply DIMENSION_IDS_NoDup |].
    apply in_map_iff. now exists a.
Qed.

Lemma curved_report_grades_every_problem_and_dimension_witness :
  exists curved,
    JsObject_keys (LetterGradesInReport.problems (CurvedReport.letter_grades curved))
    = PROBLEM_IDS /\
    JsObject_get (LetterGradesInReport.problems (CurvedReport.letter_grades curved))
                 "003400"
    = Some (getGrade (drawn world0 5)
              (computeStdDevThresholds
                 (probScores (ScorePool.scores pool_over_other_problems) "003400"))).
Proof.
  destruct (curved_report_grades_every_problem_and_dimension
              pool_over_other_problems "participant_001" world0 world0 world0 world0)
    as [curve [w1' [report [w2' [grades [w3' [curved [w4' H]]]]]]]].
  destruct H as [_ [Hgen [_ [_ [Hkeys [_ [Hp _]]]]]]].
  rewrite generateReportJSON_steps in Hgen. injection Hgen as <- _.
  exists curved. split; [exact Hkeys |].
  apply (Hp (problem_drawn world0 0 "003400")).
  left. reflexivity.
Defined.

End GeneratorFacts.
